(** * rtcm-mqtt-streamer: framing RTCM3 packets from a serial port and
      publishing them, time-stamped, over MQTT.

    A shallow embedding of [rtcm-mqtt-streamer.py].  Python values are
    modelled as follows:
    - [bytes] is a list of [Byte.byte]; [int] is [Z];
    - a call that may raise returns an [outcome]; the serial port, the clock
      and the log of external calls are threaded through a state monad;
    - [while True] loops take a fuel argument; [Running] is the outcome of a
      computation that has not finished when the fuel is spent.  It is no
      exception: no handler and no [finally] clause sees it. *)

From Stdlib Require Import ZArith List Lia Bool String Ascii.
From Stdlib Require Import Strings.Byte.
From stdpp Require Import base decidable option list gmap strings pretty.

Import ListNotations.

Set Default Proof Using "Type".

(** ** Bytes and integers *)

Abbreviation bytes := (list byte).

#[global] Instance byte_eq_decision : EqDecision byte := Byte.byte_eq_dec.

(** The value 0..255 of a byte. *)
Definition byte_val (b : byte) : Z := Z.of_N (Byte.to_N b).

(** The byte of value [z mod 256]. *)
Definition byte_of_Z (z : Z) : byte :=
  default x00 (Byte.of_N (Z.to_N (z mod 256))).

(** [int.from_bytes(bs, byteorder="big")], for [bs] of any length. *)
Definition int_from_bytes_big (bs : bytes) : Z :=
  fold_left (fun acc b => (acc * 256 + byte_val b)%Z) bs 0%Z.

(** The [n] low-order base-256 digits of [z], most significant first. *)
Fixpoint big_endian (n : nat) (z : Z) : bytes :=
  match n with
  | O => []
  | S k => big_endian k (z / 256) ++ [byte_of_Z z]
  end.

(** ** Exceptions and outcomes *)

Inductive exn_class :=
| SerialException
| OverflowError
| ArgumentTypeError
| OtherException      (* any other subclass of Exception *)
| KeyboardInterrupt
| SystemExit.

#[global] Instance exn_class_eq_decision : EqDecision exn_class.
Proof. solve_decision. Defined.

(** An exception: its class and [str(err)]. *)
Record exn := Exn { exn_cls : exn_class; exn_str : string }.

#[global] Instance exn_eq_decision : EqDecision exn.
Proof. solve_decision. Defined.

(** [isinstance(err, Exception)]: [KeyboardInterrupt] and [SystemExit] derive
    from [BaseException] only. *)
Definition is_Exception (e : exn) : bool :=
  match exn_cls e with
  | KeyboardInterrupt | SystemExit => false
  | _ => true
  end.

Inductive outcome (A : Type) :=
| Ok (a : A)
| Raise (e : exn)
| Running.
Arguments Ok {A} a.
Arguments Raise {A} e.
Arguments Running {A}.

(** ** The state-and-exception monad *)

Definition M (W A : Type) : Type := W -> outcome A * W.

Definition ret {W A} (a : A) : M W A := fun w => (Ok a, w).

Definition bind {W A B} (m : M W A) (k : A -> M W B) : M W B :=
  fun w =>
    match m w with
    | (Ok a, w') => k a w'
    | (Raise e, w') => (Raise e, w')
    | (Running, w') => (Running, w')
    end.

Definition raise {W A} (e : exn) : M W A := fun w => (Raise e, w).

Definition running {W A} : M W A := fun w => (Running, w).

#[global] Instance M_ret W : MRet (M W) := fun A => @ret W A.
#[global] Instance M_bind W : MBind (M W) := fun A B k m => @bind W A B m k.

(** [try: body except ...: handler].  [handler e = None] when no clause
    matches [e]. *)
Definition try_except {W A} (body : M W A) (handler : exn -> option (M W A))
  : M W A :=
  fun w =>
    match body w with
    | (Raise e, w') =>
        match handler e with
        | Some h => h w'
        | None => (Raise e, w')
        end
    | r => r
    end.

(** [try: body finally: fin].  The clause runs however [body] ends; an
    exception raised in the clause replaces the outcome of [body]. *)
Definition try_finally {W A} (body : M W A) (fin : M W unit) : M W A :=
  fun w =>
    match body w with
    | (Running, w') => (Running, w')
    | (r, w') =>
        match fin w' with
        | (Ok _, w'') => (r, w'')
        | (Raise e, w'') => (Raise e, w'')
        | (Running, w'') => (Running, w'')
        end
    end.

(** ** The serial port as a byte source *)

(** [serial_port.read(size)]: the bytes read, or an exception. *)
Class ByteSource (P : Type) := read : nat -> M P bytes.

(** *** [read_rtcm_packet] *)

Section FrameReader.
Context {P : Type} `{ByteSource P}.

(** Lines 74-79: read one byte at a time until it is the preamble.  The
    value returned is the last byte string read.  The calls of
    [logging.debug] are below the level the program sets and are left out. *)
Fixpoint find_preamble (fuel : nat) : M P bytes :=
  match fuel with
  | O => running
  | S fuel' =>
      preamble ← read 1;
      if decide (preamble = [xd3]) then mret preamble
      else find_preamble fuel'
  end.

(** Lines 84-86: the last ten bits of the big-endian length field. *)
Definition message_length (reserved_and_length : bytes) : Z :=
  Z.land (int_from_bytes_big reserved_and_length) 0x3FF.

(** Lines 83-94. *)
Definition read_frame_body (preamble : bytes) : M P bytes :=
  reserved_and_length ← read 2;
  message ← read (Z.to_nat (message_length reserved_and_length));
  crc ← read 3;
  mret (preamble ++ reserved_and_length ++ message ++ crc).

Definition read_rtcm_packet (fuel : nat) : M P bytes :=
  preamble ← find_preamble fuel;
  read_frame_body preamble.
End FrameReader.

(** *** A port backed by the bytes the device will deliver *)

(** What a read does when the device has fewer bytes left than requested. *)
Inductive starved :=
| Fails (e : exn)   (* the read raises: device lost, or Ctrl-C while waiting *)
| ShortRead         (* a port with a timeout: the bytes left are returned *)
| Blocks.           (* a port with no timeout on a silent device *)

Record Port := mkPort {
  rx : bytes;               (* the bytes not yet read *)
  on_starved : starved;
  requested : list nat;     (* the sizes passed to [read], oldest first *)
}.

Definition port_read (size : nat) : M Port bytes :=
  fun p =>
    let asked := requested p ++ [size] in
    if decide (size <= length (rx p)) then
      (Ok (take size (rx p)), mkPort (drop size (rx p)) (on_starved p) asked)
    else
      match on_starved p with
      | Fails e => (Raise e, mkPort [] (on_starved p) asked)
      | ShortRead => (Ok (rx p), mkPort [] (on_starved p) asked)
      | Blocks => (Running, mkPort [] (on_starved p) asked)
      end.

#[global] Instance Port_source : ByteSource Port := port_read.

Definition device_lost : exn :=
  Exn SerialException "device reports readiness to read but returned no data".

(** A port as [serial.Serial(port, baud)] opens it (no timeout), on a device
    that delivers [bs] and is then lost. *)
Definition blocking_port (bs : bytes) : Port := mkPort bs (Fails device_lost) [].

(** A port with a read timeout, on a device that delivers [bs] and then
    nothing. *)
Definition timeout_port (bs : bytes) : Port := mkPort bs ShortRead [].

(** ** Timestamps *)

Definition negative_int : exn :=
  Exn OverflowError "can't convert negative int to unsigned".
Definition int_too_big : exn := Exn OverflowError "int too big to convert".

(** [z.to_bytes(n, byteorder="big")], unsigned. *)
Definition int_to_bytes_big (z : Z) (n : nat) : outcome bytes :=
  if decide (z < 0)%Z then Raise negative_int
  else if decide (z < 256 ^ Z.of_nat n)%Z then Ok (big_endian n z)
  else Raise int_too_big.

(** ** The program and its environment *)

Inductive log_level := INFO | ERROR.

#[global] Instance log_level_eq_decision : EqDecision log_level.
Proof. solve_decision. Defined.

(** What the program does to the outside world, in order.  [Framed] is not a
    call: it records the value bound to [rtcm_packet] at line 142. *)
Inductive event :=
| Log (lvl : log_level) (msg : string)
| Print
| SerialOpen (device : string) (baud : Z)
| NewClient
| TlsSet (ca_certs certfile keyfile : string)
| Connect (host : string) (port : Z)
| FlushOutput
| LoopStart
| Sleep (secs : Z)
| Framed (rtcm_packet : bytes)
| Publish (topic : string) (payload : bytes) (qos : Z)
| Disconnect
| SerialClose.

#[global] Instance event_eq_decision : EqDecision event.
Proof. solve_decision. Defined.

Record Env := mkEnv {
  files : gset string;        (* the paths that exist *)
  clock_ms : nat -> Z;        (* the k-th value of [int(time.time() * 1000)] *)
  randint_10_99 : Z;          (* the value of [random.randint(10, 99)] *)
  (* whether a call of a library raises, given the events before it *)
  raises : list event -> event -> option exn;
}.

Record World (P : Type) := mkWorld {
  ser : P;                    (* the serial port *)
  ticks : nat;                (* how many times the clock was read *)
  trace : list event;         (* oldest first *)
}.
Arguments mkWorld {P} ser ticks trace.
Arguments ser {P} w.
Arguments ticks {P} w.
Arguments trace {P} w.

(** The command line, as argparse hands it over ([--cert-path] still a
    string). *)
Record Args := mkArgs {
  serial_port : string;
  baud_rate : Z;
  cert_path : string;
  mqtt_uri : string;
  mqtt_port : Z;
  mqtt_topic : string;
}.

Record ClientConfig := mkClientConfig {
  client_id : string;
  broker : string;
  topic : string;
  ca_cert_path : string;
  cert_dir : string;
  port : Z;
}.

(** [cert_dir / file].  A [Path] is modelled by its string; the directory is
    taken in the form [str(Path(str_path))] has. *)
Definition path_join (dir file : string) : string := dir +:+ "/" +:+ file.

(** [f"{r:02}"] *)
Definition format_02 (r : Z) : string :=
  let s := pretty r in
  if decide (String.length s < 2) then "0" +:+ s else s.

Definition make_client_id (r : Z) : string := "rtcm_mqtt_streamer" +:+ format_02 r.

Section Program.
Context {P : Type} `{ByteSource P}.
Variable env : Env.

(** A logging call or [print]: recorded, never raises. *)
Definition emit (e : event) : M (World P) unit :=
  fun w => (Ok tt, mkWorld (ser w) (ticks w) (trace w ++ [e])).

(** A call of pyserial or paho: recorded, then returns or raises. *)
Definition call (e : event) : M (World P) unit :=
  fun w =>
    let w' := mkWorld (ser w) (ticks w) (trace w ++ [e]) in
    match raises env (trace w) e with
    | Some err => (Raise err, w')
    | None => (Ok tt, w')
    end.

Definition on_port {A} (m : M P A) : M (World P) A :=
  fun w => let '(r, p') := m (ser w) in (r, mkWorld p' (ticks w) (trace w)).

Definition time_ms : M (World P) Z :=
  fun w => (Ok (clock_ms env (ticks w)), mkWorld (ser w) (S (ticks w)) (trace w)).

Definition lift {A} (o : outcome A) : M (World P) A := fun w => (o, w).

(** Lines 54-63. *)
Definition cert_files : list string :=
  ["device.crt"; "device.key"; "AmazonRootCA1.pem"].

Fixpoint check_files (cert_dir : string) (names : list string)
  : M (World P) unit :=
  match names with
  | [] => mret tt
  | file :: rest =>
      if decide (path_join cert_dir file ∈ files env) then
        emit (Log INFO ("Using " +:+ file +:+ " from " +:+ cert_dir));;
        check_files cert_dir rest
      else
        raise (Exn ArgumentTypeError
                 ("No " +:+ file +:+ " found in " +:+ cert_dir))
  end.

Definition mtls_cert_path (str_path : string) : M (World P) string :=
  check_files str_path cert_files;; mret str_path.

(** Lines 66-68. *)
Definition get_timestamp_ms_bytes (n_bytes : nat) : M (World P) bytes :=
  timestamp_ms ← time_ms;
  lift (int_to_bytes_big timestamp_ms n_bytes).

(** Lines 31-51.  The callbacks only log, from the network thread. *)
Definition create_client (config : ClientConfig) : M (World P) unit :=
  let certfile := path_join (cert_dir config) "device.crt" in
  let keyfile := path_join (cert_dir config) "device.key" in
  call NewClient;;
  call (TlsSet (ca_cert_path config) certfile keyfile);;
  call (Connect (broker config) (port config)).

(** [parser.parse_args()]: the [type=] callable of [--cert-path] runs;
    argparse turns its [ArgumentTypeError] into [SystemExit(2)]. *)
Definition parse_args (argv : Args) : M (World P) Args :=
  try_except
    (dir ← mtls_cert_path (cert_path argv);
     mret (mkArgs (serial_port argv) (baud_rate argv) dir (mqtt_uri argv)
             (mqtt_port argv) (mqtt_topic argv)))
    (fun e =>
       if decide (exn_cls e = ArgumentTypeError)
       then Some (raise (Exn SystemExit "2")) else None).

(** Lines 142-145: one turn of the loop. *)
Definition forward_packet (fuel : nat) (config : ClientConfig)
  : M (World P) unit :=
  rtcm_packet ← on_port (read_rtcm_packet fuel);
  emit (Framed rtcm_packet);;
  stamp ← get_timestamp_ms_bytes 16;
  call (Publish (topic config) (stamp ++ rtcm_packet) 1).

(** Lines 141-145: [while True]. *)
Fixpoint streaming (fuel : nat) (config : ClientConfig) : M (World P) unit :=
  match fuel with
  | O => running
  | S fuel' => forward_packet (S fuel') config;; streaming fuel' config
  end.

(** Lines 146-152. *)
Definition handlers (err : exn) : option (M (World P) unit) :=
  if is_Exception err then
    Some (emit (Log ERROR ("Fatal error: " +:+ exn_str err));;
          emit (Log ERROR "Shutting down..."))
  else if decide (exn_cls err = KeyboardInterrupt) then
    Some (emit Print;; emit (Log INFO "Received KeyboardInterrupt"))
  else None.

(** Lines 153-157. *)
Definition draining : M (World P) unit :=
  emit (Log INFO "Disconnecting from MQTT");;
  call Disconnect;;
  emit (Log INFO "Closing serial port");;
  call SerialClose.

(** Lines 136-157. *)
Definition supervise (fuel : nat) (config : ClientConfig) : M (World P) unit :=
  try_finally
    (try_except
       (call FlushOutput;;
        call LoopStart;;
        call (Sleep 1);;
        streaming fuel config)
       handlers)
    draining.

(** Lines 127-133.  [port] keeps its default. *)
Definition mqtt_config_of (args : Args) : ClientConfig :=
  mkClientConfig (make_client_id (randint_10_99 env)) (mqtt_uri args)
    (mqtt_topic args) (path_join (cert_path args) "AmazonRootCA1.pem")
    (cert_path args) 8883.

(** Lines 121-157. *)
Definition main (fuel : nat) (argv : Args) : M (World P) unit :=
  args ← parse_args argv;
  emit (Log INFO ("Attaching to " +:+ serial_port args +:+
                  " with baud rate " +:+ pretty (baud_rate args)));;
  call (SerialOpen (serial_port args) (baud_rate args));;
  let mqtt_config := mqtt_config_of args in
  create_client mqtt_config;;
  supervise fuel mqtt_config.
End Program.

(** ** Reading a trace *)

Definition is_log (ev : event) : bool :=
  match ev with Log _ _ => true | _ => false end.

(** The packets bound to [rtcm_packet], in order. *)
Definition framed_packets (tr : list event) : list bytes :=
  omap (fun ev => match ev with Framed f => Some f | _ => None end) tr.

(** The packets handed to [publish], in order: each payload without its
    16 bytes of time stamp. *)
Definition published_packets (tr : list event) : list bytes :=
  omap (fun ev =>
          match ev with
          | Publish _ payload _ => Some (drop 16 payload)
          | _ => None
          end) tr.

(** The events of a turn of the loop that framed [turn.1] and stamped it
    with [turn.2]. *)
Definition turn_events (topic : string) (turn : bytes * bytes) : list event :=
  [Framed turn.1; Publish topic (turn.2 ++ turn.1) 1].

(** All three credential files are in the directory. *)
Definition credentials_present (env : Env) (dir : string) : Prop :=
  forall file, file ∈ cert_files -> path_join dir file ∈ files env.

(** ** Frames on the wire *)

(** The wire format: [0xD3], two bytes holding six reserved bits and the
    ten-bit length, as many payload bytes as the length says, three bytes of
    check value. *)
Definition is_frame (f : bytes) : bool :=
  match f with
  | b :: hi :: lo :: body =>
      bool_decide (b = xd3)
      && bool_decide (length body = Z.to_nat (message_length [hi; lo]) + 3)
  | _ => false
  end.

(** The payload length a frame announces (bytes 1 and 2). *)
Definition announced_length (f : bytes) : nat :=
  Z.to_nat (message_length (take 2 (drop 1 f))).

(** How many bytes a call of the reader takes from a port: in all, and after
    the read that returned the preamble. *)
Definition consumed (fuel : nat) (p : Port) : option nat :=
  match read_rtcm_packet fuel p with
  | (Ok _, p2) => Some (length (rx p) - length (rx p2))
  | _ => None
  end.

Definition consumed_past_preamble (fuel : nat) (p : Port) : option nat :=
  match find_preamble fuel p, read_rtcm_packet fuel p with
  | (Ok _, p1), (Ok _, p2) => Some (length (rx p1) - length (rx p2))
  | _, _ => None
  end.

(** ** The events the program is expected to emit *)

(** The line [mtls_cert_path] logs for a file it finds. *)
Definition using_log (dir file : string) : event :=
  Log INFO ("Using " +:+ file +:+ " from " +:+ dir).

(** Lines 123-134: what the program does between the parsing of its
    arguments and the [try] statement. *)
Definition startup_events (argv : Args) : list event :=
  [Log INFO ("Attaching to " +:+ serial_port argv +:+
             " with baud rate " +:+ pretty (baud_rate argv));
   SerialOpen (serial_port argv) (baud_rate argv);
   NewClient;
   TlsSet (path_join (cert_path argv) "AmazonRootCA1.pem")
     (path_join (cert_path argv) "device.crt")
     (path_join (cert_path argv) "device.key");
   Connect (mqtt_uri argv) 8883].

(** Lines 137-139: the head of the [try] block. *)
Definition settle_events : list event := [FlushOutput; LoopStart; Sleep 1].

(** Lines 146-152: what the [except] clauses log for [err]. *)
Definition handler_events (err : exn) : list event :=
  if is_Exception err then
    [Log ERROR ("Fatal error: " +:+ exn_str err); Log ERROR "Shutting down..."]
  else if decide (exn_cls err = KeyboardInterrupt) then
    [Print; Log INFO "Received KeyboardInterrupt"]
  else [].

(** Lines 153-157, when neither call raises. *)
Definition draining_events : list event :=
  [Log INFO "Disconnecting from MQTT"; Disconnect;
   Log INFO "Closing serial port"; SerialClose].

(** An event of the [except] and [finally] clauses. *)
Definition is_teardown (ev : event) : bool :=
  match ev with
  | Log _ _ | Print | Disconnect | SerialClose => true
  | _ => false
  end.

(** An event of the streaming loop. *)
Definition is_turn_event (ev : event) : bool :=
  match ev with
  | Framed _ | Publish _ _ _ => true
  | _ => false
  end.

#[global] Instance credentials_present_decision env dir :
  Decision (credentials_present env dir).
Proof.
  unfold credentials_present.
  refine (cast_if (decide (Forall (fun file => path_join dir file ∈ files env)
                             cert_files)));
    abstract (by rewrite Forall_forall in *).
Defined.

(** The events of a run of the streaming loop: whole turns, each with a
    16-byte stamp, then at most one packet framed and not published. *)
Definition loop_shape (topic : string) (loop : list event) : Prop :=
  exists turns last,
    loop = flat_map (turn_events topic) turns ++ last
    /\ Forall (fun turn : bytes * bytes => length turn.2 = 16) turns
    /\ (last = [] \/ exists f, last = [Framed f]).

(** The events of the [try] statement: the head of the block as far as it
    got, the loop if it was reached, the clauses. *)
Definition guarded_shape (topic : string) (evs : list event) : Prop :=
  exists pre loop tail,
    evs = pre ++ loop ++ tail
    /\ pre `prefix_of` settle_events
    /\ (loop <> [] -> pre = settle_events)
    /\ loop_shape topic loop
    /\ Forall (fun ev => is_teardown ev = true) tail.

(** The events of a run of the program: the log of the credential check,
    the start-up as far as it got, the [try] statement if it was reached. *)
Definition program_shape (env : Env) (argv : Args) (evs : list event) : Prop :=
  exists logs rest,
    evs = logs ++ rest
    /\ Forall (fun ev => is_log ev = true) logs
    /\ (rest <> [] -> credentials_present env (cert_path argv))
    /\ (rest `prefix_of` startup_events argv
        \/ exists guarded,
             rest = startup_events argv ++ guarded
             /\ guarded_shape (mqtt_topic argv) guarded).

(** An environment whose broker refuses the connection. *)
Definition connection_refused : exn := Exn OtherException "Connection refused".

Definition no_broker : Env :=
  mkEnv (list_to_set ["certs/device.crt"; "certs/device.key";
                      "certs/AmazonRootCA1.pem"])
    (fun k => 1700000000000 + Z.of_nat k)%Z 10
    (fun _ ev => match ev with
                 | Connect _ _ => Some connection_refused
                 | _ => None
                 end).

(** An environment with the three credential files in [certs]. *)
Definition with_credentials : Env :=
  mkEnv (list_to_set ["certs/device.crt"; "certs/device.key";
                      "certs/AmazonRootCA1.pem"])
    (fun k => 1700000000000 + Z.of_nat (Nat.min k 1000))%Z 10
    (fun _ _ => None).

(** A command line that asks for the plain MQTT port. *)
Definition plain_port_argv : Args :=
  mkArgs "/dev/ttyACM0" 115200 "certs" "broker" 1883 "ntrip/data".

(** The bytes on the wire for frames with garbage before each: [chunks] pairs
    the garbage ([c.1]) with the frame that follows it ([c.2]). *)
Definition wire (chunks : list (bytes * bytes)) : bytes :=
  flat_map (fun c => c.1 ++ c.2) chunks.

(** ** Environments to run the program in *)

(** The clock of late 2023; no library call raises. *)
Definition epoch_2023 : Env :=
  mkEnv ∅ (fun k => 1700000000000 + Z.of_nat k)%Z 10 (fun _ _ => None).

(** The same, in a directory that has no [device.key]. *)
Definition no_key : Env :=
  mkEnv (list_to_set ["certs/device.crt"; "certs/AmazonRootCA1.pem"])
    (fun k => 1700000000000 + Z.of_nat k)%Z 10 (fun _ _ => None).

(** The same, with a client whose [disconnect] raises. *)
Definition disconnect_failed : exn := Exn OtherException "disconnect failed".

Definition bad_disconnect : Env :=
  mkEnv ∅ (fun k => 1700000000000 + Z.of_nat k)%Z 10
    (fun _ ev => if decide (ev = Disconnect) then Some disconnect_failed else None).

(** A clock too far in the future for 16 bytes. *)
Definition late_clock : Env := mkEnv ∅ (fun _ => 2 ^ 128)%Z 10 (fun _ _ => None).

(** In the states [I] of a source every read that returns gives as many
    bytes as were asked for, and leaves the source in [I]. *)
Definition exact_reads {P : Type} `{ByteSource P} (I : P -> Prop) : Prop :=
  forall n p bs p', I p -> read n p = (Ok bs, p') -> length bs = n /\ I p'.

(** * Properties *)

Ltac unfold_monad :=
  unfold mbind, mret, M_bind, M_ret, bind, ret, raise, running in *.

(** ** Bytes *)

Lemma byte_val_range b : (0 <= byte_val b < 256)%Z.
Proof.
  unfold byte_val. pose proof (Byte.to_N_bounded b). lia.
Qed.

Lemma byte_val_of_Z z : byte_val (byte_of_Z z) = (z mod 256)%Z.
Proof.
  unfold byte_val, byte_of_Z.
  assert (Hr : (0 <= z mod 256 < 256)%Z) by (apply Z.mod_pos_bound; lia).
  destruct (Byte.of_N (Z.to_N (z mod 256))) as [b|] eqn:E.
  - apply Byte.to_of_N in E. simpl. rewrite E. lia.
  - apply Byte.of_N_None_iff in E. lia.
Qed.

Lemma int_from_bytes_big_snoc bs b :
  int_from_bytes_big (bs ++ [b]) = (int_from_bytes_big bs * 256 + byte_val b)%Z.
Proof. unfold int_from_bytes_big. by rewrite fold_left_app. Qed.

Lemma int_from_bytes_big_nonneg bs : (0 <= int_from_bytes_big bs)%Z.
Proof.
  induction bs as [|b bs IH] using rev_ind; [done|].
  rewrite int_from_bytes_big_snoc. pose proof (byte_val_range b). lia.
Qed.

Lemma big_endian_length n z : length (big_endian n z) = n.
Proof.
  revert z. induction n as [|n IH]; intros z; simpl; [done|].
  rewrite length_app, IH. simpl. lia.
Qed.

(** Decoding the [n] bytes gives back the value modulo [256 ^ n]: padding
    with zeros when it is small, and the low-order bytes when it is not. *)
Lemma int_from_bytes_big_endian n z :
  int_from_bytes_big (big_endian n z) = (z mod 256 ^ Z.of_nat n)%Z.
Proof.
  revert z. induction n as [|n IH]; intros z.
  - simpl. by rewrite Z.mod_1_r.
  - cbn [big_endian]. rewrite int_from_bytes_big_snoc, IH, byte_val_of_Z.
    rewrite Nat2Z.inj_succ, Z.pow_succ_r by lia.
    assert (0 < 256 ^ Z.of_nat n)%Z by (apply Z.pow_pos_nonneg; lia).
    rewrite Z.rem_mul_r by lia. lia.
Qed.

Lemma message_length_mod bs :
  message_length bs = (int_from_bytes_big bs mod 1024)%Z.
Proof.
  unfold message_length. change 0x3FF%Z with (Z.ones 10).
  by rewrite Z.land_ones.
Qed.

Lemma message_length_range bs : (0 <= message_length bs <= 1023)%Z.
Proof.
  rewrite message_length_mod.
  pose proof (Z.mod_pos_bound (int_from_bytes_big bs) 1024). lia.
Qed.

Lemma message_length_two hi lo :
  message_length [hi; lo] = ((byte_val hi * 256 + byte_val lo) mod 1024)%Z.
Proof. by rewrite message_length_mod. Qed.

(** ** Reading from a port *)

Lemma port_read_le n bs m rq :
  n <= length bs ->
  port_read n (mkPort bs m rq)
  = (Ok (take n bs), mkPort (drop n bs) m (rq ++ [n])).
Proof. intros Hn. unfold port_read. simpl. by rewrite decide_True. Qed.

Lemma port_read_app bs rest m rq :
  port_read (length bs) (mkPort (bs ++ rest) m rq)
  = (Ok bs, mkPort rest m (rq ++ [length bs])).
Proof.
  rewrite port_read_le by (rewrite length_app; lia).
  by rewrite take_app_length, drop_app_length.
Qed.

Lemma port_read_starved n bs m rq :
  length bs < n ->
  port_read n (mkPort bs m rq)
  = (match m with
     | Fails e => Raise e
     | ShortRead => Ok bs
     | Blocks => Running
     end, mkPort [] m (rq ++ [n])).
Proof.
  intros Hn. unfold port_read. simpl. rewrite decide_False by lia.
  by destruct m.
Qed.

(** The scan drops bytes other than the preamble, one read each. *)
Lemma find_preamble_skips garbage rest m rq fuel :
  Forall (fun b => b <> xd3) garbage ->
  length garbage < fuel ->
  find_preamble fuel (mkPort (garbage ++ xd3 :: rest) m rq)
  = (Ok [xd3], mkPort rest m (rq ++ replicate (length garbage) 1 ++ [1])).
Proof.
  intros Hg. revert rq fuel.
  induction Hg as [|g garbage Hne _ IH]; intros rq fuel Hfuel;
    (destruct fuel as [|fuel]; [simpl in Hfuel; lia|]).
  - simpl. unfold_monad. unfold read, Port_source.
    by rewrite (port_read_le 1) by (simpl; lia).
  - cbn [find_preamble]. unfold_monad. unfold read, Port_source.
    rewrite (port_read_le 1) by (simpl; lia).
    cbn [take drop app]. rewrite decide_False by congruence.
    fold (@read Port Port_source).
    change (@find_preamble Port port_read fuel) with (@find_preamble Port Port_source fuel).
    rewrite IH by (simpl in Hfuel; lia).
    simpl. by rewrite <- !app_assoc.
Qed.

Lemma read_frame_body_port preamble hi lo body rest m rq :
  length body = Z.to_nat (message_length [hi; lo]) + 3 ->
  read_frame_body preamble (mkPort (hi :: lo :: body ++ rest) m rq)
  = (Ok (preamble ++ hi :: lo :: body),
     mkPort rest m (rq ++ [2; Z.to_nat (message_length [hi; lo]); 3])).
Proof.
  intros Hlen. set (L := Z.to_nat (message_length [hi; lo])) in *.
  rewrite <- (take_drop L body), <- app_assoc.
  assert (H1 : length (take L body) = L) by (rewrite length_take; lia).
  assert (H2 : length (drop L body) = 3) by (rewrite length_drop; lia).
  unfold read_frame_body. unfold_monad. unfold read, Port_source.
  change (hi :: lo :: take L body ++ drop L body ++ rest)
    with ([hi; lo] ++ take L body ++ drop L body ++ rest).
  rewrite (port_read_app [hi; lo]). fold L.
  rewrite <- H1 at 1. rewrite port_read_app, H1.
  rewrite <- H2 at 1. rewrite port_read_app, H2.
  by rewrite <- !app_assoc.
Qed.

Lemma is_frame_inv f :
  is_frame f = true ->
  exists hi lo body,
    f = xd3 :: hi :: lo :: body
    /\ length body = Z.to_nat (message_length [hi; lo]) + 3.
Proof.
  destruct f as [|b [|hi [|lo body]]]; simpl; try done.
  intros [Hb Hl]%andb_true_iff.
  apply bool_decide_eq_true in Hb, Hl. subst b. eauto.
Qed.

Lemma is_frame_length f :
  is_frame f = true -> length f = 6 + announced_length f.
Proof.
  intros (hi & lo & body & -> & Hl)%is_frame_inv.
  unfold announced_length.
  change (take 2 (drop 1 (xd3 :: hi :: lo :: body))) with [hi; lo].
  cbn [length]. lia.
Qed.

(** A frame at the head of the port, after garbage, is read whole. *)
Lemma read_rtcm_packet_port garbage f rest m rq fuel :
  Forall (fun b => b <> xd3) garbage ->
  is_frame f = true ->
  length garbage < fuel ->
  read_rtcm_packet fuel (mkPort (garbage ++ f ++ rest) m rq)
  = (Ok f, mkPort rest m
             (rq ++ replicate (length garbage) 1 ++ [1; 2; announced_length f; 3])).
Proof.
  intros Hg (hi & lo & body & -> & Hl)%is_frame_inv Hfuel.
  unfold read_rtcm_packet. unfold_monad.
  change ((xd3 :: hi :: lo :: body) ++ rest) with (xd3 :: hi :: lo :: body ++ rest).
  rewrite find_preamble_skips by done.
  rewrite read_frame_body_port by done.
  unfold announced_length.
  change (take 2 (drop 1 (xd3 :: hi :: lo :: body))) with [hi; lo].
  cbn [app]. by rewrite <- !app_assoc.
Qed.

Lemma announced_length_le f : announced_length f <= 1023.
Proof.
  unfold announced_length.
  pose proof (message_length_range (take 2 (drop 1 f))). lia.
Qed.

(** Once a port with a timeout has run dry, every read returns no byte and the
    scan for the preamble goes on for ever. *)
Lemma find_preamble_dry fuel rq :
  find_preamble fuel (mkPort [] ShortRead rq)
  = (Running, mkPort [] ShortRead (rq ++ replicate fuel 1)).
Proof.
  revert rq. induction fuel as [|fuel IH]; intros rq.
  - simpl. unfold_monad. by rewrite app_nil_r.
  - cbn [find_preamble]. unfold_monad. unfold read, Port_source.
    rewrite port_read_starved by (simpl; lia).
    rewrite decide_False by done.
    change (@find_preamble Port port_read fuel)
      with (@find_preamble Port Port_source fuel).
    rewrite IH. simpl. by rewrite <- app_assoc.
Qed.

(** ** The frame reader on well-formed input *)

(** C1, as amended.  A well-formed frame at the head of the port is returned
    byte for byte, whatever follows it and whatever the port does when
    starved.  The reader takes exactly the [6 + L] bytes of the frame from
    the port, the preamble among them: [5 + L] bytes past the preamble.  A
    frame of payload length 0 has 6 bytes, one of payload length 1023 has
    1029. *)
Theorem frame_read_whole f rest m rq fuel :
  is_frame f = true ->
  0 < fuel ->
  let p := mkPort (f ++ rest) m rq in
  read_rtcm_packet fuel p
  = (Ok f, mkPort rest m (rq ++ [1; 2; announced_length f; 3]))
  /\ length f = 6 + announced_length f
  /\ consumed fuel p = Some (6 + announced_length f)
  /\ consumed_past_preamble fuel p = Some (5 + announced_length f)
  /\ (announced_length f = 0 -> length f = 6)
  /\ (announced_length f = 1023 -> length f = 1029).
Proof.
  intros Hf Hfuel p.
  pose proof (is_frame_length f Hf) as Hlen.
  assert (Hread : read_rtcm_packet fuel p
                  = (Ok f, mkPort rest m (rq ++ [1; 2; announced_length f; 3]))).
  { apply (read_rtcm_packet_port [] f rest m rq fuel); [constructor|done|done]. }
  split; [done|]. split; [done|].
  split; [|split; [|split; intros HL; lia]].
  - unfold consumed. rewrite Hread. subst p. simpl.
    rewrite length_app. f_equal. lia.
  - unfold consumed_past_preamble. rewrite Hread.
    destruct (is_frame_inv f Hf) as (hi & lo & body & -> & Hl).
    subst p.
    change ((xd3 :: hi :: lo :: body) ++ rest)
      with ([] ++ xd3 :: hi :: lo :: body ++ rest).
    rewrite find_preamble_skips by (done || constructor).
    cbn [rx length]. rewrite length_app. cbn [length] in Hlen.
    f_equal. lia.
Qed.

Lemma frame_read_whole_witness :
  let f := xd3 :: xff :: xff :: replicate 1026 x55 in
  read_rtcm_packet 1 (blocking_port (f ++ [xd3]))
  = (Ok f, mkPort [xd3] (Fails device_lost) [1; 2; 1023; 3])
  /\ length f = 1029.
Proof.
  intros f.
  assert (Hf : is_frame f = true) by (vm_compute; reflexivity).
  assert (Hfuel : 0 < 1) by lia.
  destruct (frame_read_whole f [xd3] (Fails device_lost) [] 1 Hf Hfuel)
    as (Hread & _ & _ & _ & _ & Hmax).
  split; [exact Hread|].
  apply Hmax. vm_compute. reflexivity.
Defined.

(** The six bytes [D3 00 00 AA BB CC] are a frame, and the reader takes five
    bytes, not six, past its preamble. *)
Lemma past_preamble_not_six :
  ~ (forall f rest,
       is_frame f = true ->
       consumed_past_preamble 1 (blocking_port (f ++ rest))
       = Some (6 + announced_length f)).
Proof.
  intros Hclaim.
  specialize (Hclaim [xd3; x00; x00; xaa; xbb; xcc] [] eq_refl).
  vm_compute in Hclaim. discriminate Hclaim.
Qed.

(** C2.  The payload length is the big-endian value of the two bytes after
    the preamble with its six high bits cleared: its low ten bits, between 0
    and 1023.  The reader asks the port for one byte, then for exactly two,
    then for as many as that length.  On [D3 00 03 01 02 03 AA BB CC] the
    length is 3, the nine bytes come back as one frame, and no second frame
    follows. *)
Theorem length_field_decoding :
  (forall hi lo,
     message_length [hi; lo]
     = Z.land (byte_val hi * 256 + byte_val lo) 0x3FF)
  /\ (forall bs i, (0 <= i)%Z ->
        Z.testbit (message_length bs) i
        = Z.testbit (int_from_bytes_big bs) i && bool_decide (i < 10)%Z)
  /\ (forall bs, (0 <= message_length bs <= 1023)%Z)
  /\ (forall hi lo rest m rq,
        exists more,
          requested
            (snd (read_rtcm_packet 1 (mkPort (xd3 :: hi :: lo :: rest) m rq)))
          = rq ++ 1 :: 2 :: Z.to_nat (message_length [hi; lo]) :: more)
  /\ (let stream := [xd3; x00; x03; x01; x02; x03; xaa; xbb; xcc] in
      message_length [x00; x03] = 3%Z
      /\ read_rtcm_packet 1 (blocking_port stream)
         = (Ok stream, mkPort [] (Fails device_lost) [1; 2; 3; 3])
      /\ forall fuel f p',
           read_rtcm_packet fuel (mkPort [] (Fails device_lost) [1; 2; 3; 3])
           <> (Ok f, p')).
Proof.
  split; [done|]. split; [|split; [apply message_length_range|split]].
  - intros bs i Hi. unfold message_length. rewrite Z.land_spec.
    f_equal. change 0x3FF%Z with (Z.ones 10).
    case_bool_decide.
    + apply Z.ones_spec_low. lia.
    + apply Z.ones_spec_high. lia.
  - intros hi lo rest m rq.
    unfold read_rtcm_packet, read_frame_body; cbn [find_preamble].
    unfold_monad. unfold read, Port_source.
    rewrite (port_read_le 1) by (simpl; lia).
    change (take 1 (xd3 :: hi :: lo :: rest)) with [xd3].
    change (drop 1 (xd3 :: hi :: lo :: rest)) with (hi :: lo :: rest).
    rewrite decide_True by done.
    rewrite (port_read_le 2) by (simpl; lia).
    change (take 2 (hi :: lo :: rest)) with [hi; lo].
    change (drop 2 (hi :: lo :: rest)) with rest.
    set (L := Z.to_nat (message_length [hi; lo])).
    destruct (decide (L <= length rest)) as [HL|HL].
    + rewrite (port_read_le L) by done.
      destruct (port_read 3 _) as [[crc| |] p'] eqn:E; unfold port_read in E;
        cbn [rx requested on_starved] in E;
        repeat case_decide; repeat case_match; simplify_eq; cbn [snd requested];
        rewrite <- !app_assoc; eauto.
    + rewrite port_read_starved by lia.
      destruct m.
      * exists []. cbn [snd requested]. by rewrite <- !app_assoc.
      * destruct (port_read 3 _) as [[crc| |] p'] eqn:E; unfold port_read in E;
          cbn [rx requested on_starved] in E;
          repeat case_decide; repeat case_match; simplify_eq;
          cbn [snd requested]; rewrite <- !app_assoc; eauto.
      * exists []. cbn [snd requested]. by rewrite <- !app_assoc.
  - intros stream. split; [by vm_compute|]. split; [by vm_compute|].
    intros [|fuel] f p'; [by vm_compute|].
    unfold read_rtcm_packet; cbn [find_preamble]. unfold_monad.
    unfold read, Port_source. rewrite port_read_starved by (simpl; lia).
    done.
Qed.

(** C3.  Bytes other than [0xD3] in front of a well-formed frame are read one
    at a time and dropped; no exception is raised for them.  The frame that
    comes out, and what is left in the port after it, are what they are
    without the garbage. *)
Theorem resynchronisation garbage f rest m rq fuel :
  Forall (fun b => b <> xd3) garbage ->
  is_frame f = true ->
  length garbage < fuel ->
  let dirty := read_rtcm_packet fuel (mkPort (garbage ++ f ++ rest) m rq) in
  let clean := read_rtcm_packet fuel (mkPort (f ++ rest) m rq) in
  fst dirty = Ok f
  /\ fst clean = Ok f
  /\ rx (snd dirty) = rest
  /\ rx (snd clean) = rest
  /\ requested (snd dirty)
     = rq ++ replicate (length garbage) 1 ++ [1; 2; announced_length f; 3]
  /\ consumed fuel (mkPort (garbage ++ f ++ rest) m rq)
     = Some (length garbage + length f).
Proof.
  intros Hg Hf Hfuel dirty clean.
  assert (Hd : dirty = (Ok f, mkPort rest m
             (rq ++ replicate (length garbage) 1 ++ [1; 2; announced_length f; 3])))
    by (by apply read_rtcm_packet_port).
  assert (Hc : clean = (Ok f, mkPort rest m
             (rq ++ replicate 0 1 ++ [1; 2; announced_length f; 3]))).
  { apply (read_rtcm_packet_port [] f rest m rq fuel); [constructor|done|].
    simpl. lia. }
  rewrite Hd, Hc. repeat split; try done.
  unfold consumed. fold dirty. rewrite Hd. cbn [rx].
  rewrite !length_app. f_equal. lia.
Qed.

Lemma resynchronisation_witness :
  let stream := [xff; xff; xd3; x00; x00; xaa; xbb; xcc] in
  fst (read_rtcm_packet 3 (blocking_port stream))
  = Ok [xd3; x00; x00; xaa; xbb; xcc]
  /\ rx (snd (read_rtcm_packet 3 (blocking_port stream))) = []
  /\ consumed 3 (blocking_port stream) = Some 8.
Proof.
  assert (Hg : Forall (fun b => b <> xd3) [xff; xff])
    by (repeat constructor; discriminate).
  assert (Hf : is_frame [xd3; x00; x00; xaa; xbb; xcc] = true)
    by (vm_compute; reflexivity).
  assert (Hfuel : length [xff; xff] < 3) by (simpl; lia).
  destruct (resynchronisation [xff; xff] [xd3; x00; x00; xaa; xbb; xcc] []
              (Fails device_lost) [] 3 Hg Hf Hfuel)
    as (Hout & _ & Hrx & _ & _ & Hc).
  intros stream. split; [exact Hout|]. split; [exact Hrx|exact Hc].
Defined.

(** ** The frame reader on any source *)

Lemma bind_Ok_inv {W A B} (m : M W A) (k : A -> M W B) w b w' :
  (m ≫= k) w = (Ok b, w') ->
  exists a w1, m w = (Ok a, w1) /\ k a w1 = (Ok b, w').
Proof.
  unfold_monad. destruct (m w) as [[a| |] w1]; intros Hk; try discriminate.
  eauto.
Qed.

Lemma bind_Raise_l {W A B} (m : M W A) (k : A -> M W B) w e w' :
  m w = (Raise e, w') -> (m ≫= k) w = (Raise e, w').
Proof. intros Hm. unfold_monad. by rewrite Hm. Qed.

Lemma bind_Ok_l {W A B} (m : M W A) (k : A -> M W B) w a w1 :
  m w = (Ok a, w1) -> (m ≫= k) w = k a w1.
Proof. intros Hm. unfold_monad. by rewrite Hm. Qed.

Section AnySource.
Context {P : Type} `{ByteSource P}.

(** The scan returns nothing but the preamble. *)
Lemma find_preamble_Ok fuel s pre s1 :
  find_preamble fuel s = (Ok pre, s1) -> pre = [xd3].
Proof.
  revert s. induction fuel as [|fuel IH]; intros s; [done|].
  cbn [find_preamble]. intros (b & s0 & Hb & Hk)%bind_Ok_inv.
  destruct (decide (b = [xd3])) as [->|]; [|by eapply IH].
  unfold_monad. congruence.
Qed.

Lemma find_preamble_keeps I fuel s pre s1 :
  exact_reads I -> I s -> find_preamble fuel s = (Ok pre, s1) -> I s1.
Proof.
  intros HI. revert s. induction fuel as [|fuel IH]; intros s Hs; [done|].
  cbn [find_preamble]. intros (b & s0 & Hb & Hk)%bind_Ok_inv.
  destruct (HI _ _ _ _ Hs Hb) as [_ Hs0].
  destruct (decide (b = [xd3])) as [->|]; [|by eapply IH].
  unfold_monad. congruence.
Qed.

(** The four reads behind a returned frame. *)
Lemma read_rtcm_packet_Ok fuel s f s' :
  read_rtcm_packet fuel s = (Ok f, s') ->
  exists s1 s2 s3 field message crc,
    find_preamble fuel s = (Ok [xd3], s1)
    /\ read 2 s1 = (Ok field, s2)
    /\ read (Z.to_nat (message_length field)) s2 = (Ok message, s3)
    /\ read 3 s3 = (Ok crc, s')
    /\ f = [xd3] ++ field ++ message ++ crc.
Proof.
  unfold read_rtcm_packet, read_frame_body.
  intros (pre & s1 & Hpre & Hbody)%bind_Ok_inv.
  pose proof (find_preamble_Ok _ _ _ _ Hpre) as ->.
  apply bind_Ok_inv in Hbody as (field & s2 & Hfield & Hbody).
  apply bind_Ok_inv in Hbody as (message & s3 & Hmsg & Hbody).
  apply bind_Ok_inv in Hbody as (crc & s4 & Hcrc & Hret).
  unfold_monad. simplify_eq. eauto 12.
Qed.

Lemma read_rtcm_packet_head fuel s f s' :
  read_rtcm_packet fuel s = (Ok f, s') -> head f = Some xd3.
Proof.
  intros (s1 & s2 & s3 & field & message & crc & _ & _ & _ & _ & ->)
    %read_rtcm_packet_Ok.
  done.
Qed.

Lemma read_rtcm_packet_length I fuel s f s' :
  exact_reads I -> I s ->
  read_rtcm_packet fuel s = (Ok f, s') ->
  length f = 6 + announced_length f /\ 6 <= length f <= 1029.
Proof.
  intros HI Hs
    (s1 & s2 & s3 & field & message & crc & Hpre & Hfield & Hmsg & Hcrc & ->)
    %read_rtcm_packet_Ok.
  pose proof (find_preamble_keeps I _ _ _ _ HI Hs Hpre) as Hs1.
  destruct (HI _ _ _ _ Hs1 Hfield) as [Lfield Hs2].
  destruct (HI _ _ _ _ Hs2 Hmsg) as [Lmsg Hs3].
  destruct (HI _ _ _ _ Hs3 Hcrc) as [Lcrc _].
  assert (Hann : announced_length ([xd3] ++ field ++ message ++ crc)
                 = Z.to_nat (message_length field)).
  { unfold announced_length.
    change (drop 1 ([xd3] ++ field ++ message ++ crc))
      with (field ++ message ++ crc).
    by rewrite take_app_length' by done. }
  rewrite Hann. cbn [app length]. rewrite !length_app.
  pose proof (message_length_range field). lia.
Qed.

(** An exception raised by a read after the preamble comes out of the
    reader as it is. *)
Lemma read_frame_body_raises pre s1 e s' :
  (read 2 s1 = (Raise e, s')
   \/ (exists field s2,
         read 2 s1 = (Ok field, s2)
         /\ (read (Z.to_nat (message_length field)) s2 = (Raise e, s')
             \/ exists message s3,
                  read (Z.to_nat (message_length field)) s2 = (Ok message, s3)
                  /\ read 3 s3 = (Raise e, s')))) ->
  read_frame_body pre s1 = (Raise e, s').
Proof.
  unfold read_frame_body.
  intros [H2|(field & s2 & H2 & [HL|(message & s3 & HL & H3)])].
  - by apply bind_Raise_l.
  - rewrite (bind_Ok_l _ _ _ _ _ H2). by apply bind_Raise_l.
  - rewrite (bind_Ok_l _ _ _ _ _ H2), (bind_Ok_l _ _ _ _ _ HL).
    by apply bind_Raise_l.
Qed.
End AnySource.

(** A port that raises when starved reads exactly. *)
Lemma port_exact_reads e : exact_reads (fun p : Port => on_starved p = Fails e).
Proof.
  intros n [bs m rq] got p'. cbn [on_starved]. intros ->.
  unfold read, Port_source, port_read. cbn [rx on_starved requested].
  case_decide; intros ?; simplify_eq.
  split; [|done]. by rewrite length_take_le.
Qed.

(** C10.  A byte string the reader returns starts with [0xD3] and, when the
    source reads exactly, has 6 bytes more than the low ten bits of its
    length field say: between 6 and 1029 bytes. *)
Theorem returned_frame_shape {P : Type} `{ByteSource P} fuel (s s' : P) f :
  read_rtcm_packet fuel s = (Ok f, s') ->
  head f = Some xd3
  /\ forall I : P -> Prop,
       exact_reads I -> I s ->
       length f = 6 + announced_length f
       /\ announced_length f
          = Z.to_nat (Z.land (int_from_bytes_big (take 2 (drop 1 f))) 0x3FF)
       /\ 6 <= length f <= 1029.
Proof.
  intros Hread. split; [by eapply read_rtcm_packet_head|].
  intros I HI Hs.
  destruct (read_rtcm_packet_length I _ _ _ _ HI Hs Hread) as [Hlen Hrange].
  done.
Qed.

Lemma returned_frame_shape_witness :
  let f := [xd3; xfc; x02; x10; x20; xaa; xbb; xcc] in
  head f = Some xd3
  /\ length f = 6 + announced_length f
  /\ announced_length f
     = Z.to_nat (Z.land (int_from_bytes_big (take 2 (drop 1 f))) 0x3FF)
  /\ 6 <= length f <= 1029.
Proof.
  intros f.
  assert (Hread : read_rtcm_packet 2 (blocking_port (xff :: f ++ [x01]))
                  = (Ok f, mkPort [x01] (Fails device_lost) [1; 1; 2; 2; 3]))
    by (vm_compute; reflexivity).
  destruct (returned_frame_shape _ _ _ _ Hread) as [Hhead Hlen].
  split; [exact Hhead|].
  exact (Hlen _ (port_exact_reads device_lost) eq_refl).
Defined.

(** ** The end of the stream inside a frame *)

(** C4.  The end of the stream is the loss of the device: the read of the
    port raises.  When the stream ends after a preamble and before the
    length field, the payload and the check value are complete, the reader
    raises that exception and no frame comes out.  The reader never returns
    a frame shorter than 6 bytes plus the payload length. *)
Theorem stream_lost_mid_frame e garbage tail rq fuel :
  Forall (fun b => b <> xd3) garbage ->
  length garbage < fuel ->
  length tail < 5 + announced_length (xd3 :: tail) ->
  (exists p',
     read_rtcm_packet fuel (mkPort (garbage ++ xd3 :: tail) (Fails e) rq)
     = (Raise e, p'))
  /\ (forall fuel' p f p',
        on_starved p = Fails e ->
        read_rtcm_packet fuel' p = (Ok f, p') ->
        6 + announced_length f <= length f).
Proof.
  intros Hg Hfuel Htail. split.
  - unfold read_rtcm_packet.
    rewrite (bind_Ok_l _ _ _ _ _ (find_preamble_skips _ _ _ _ _ Hg Hfuel)).
    set (rq1 := rq ++ _).
    destruct tail as [|hi [|lo t2]].
    + eexists. apply read_frame_body_raises. left.
      unfold read, Port_source. by rewrite port_read_starved by (simpl; lia).
    + eexists. apply read_frame_body_raises. left.
      unfold read, Port_source. by rewrite port_read_starved by (simpl; lia).
    + unfold announced_length in Htail.
      change (take 2 (drop 1 (xd3 :: hi :: lo :: t2))) with [hi; lo] in Htail.
      cbn [length] in Htail.
      set (L := Z.to_nat (message_length [hi; lo])) in *.
      assert (H2 : read 2 (mkPort (hi :: lo :: t2) (Fails e) rq1)
                   = (Ok [hi; lo], mkPort t2 (Fails e) (rq1 ++ [2])))
        by (unfold read, Port_source; by rewrite port_read_le by (simpl; lia)).
      destruct (decide (L <= length t2)) as [HL|HL].
      * eexists. apply read_frame_body_raises. right.
        eexists _, _. split; [exact H2|]. right. fold L.
        eexists _, _. unfold read, Port_source.
        rewrite (port_read_le L) by done. split; [done|].
        by rewrite port_read_starved by (rewrite length_drop; lia).
      * eexists. apply read_frame_body_raises. right.
        eexists _, _. split; [exact H2|]. left. fold L.
        unfold read, Port_source. by rewrite port_read_starved by lia.
  - intros fuel' p f p' Hp Hread.
    destruct (read_rtcm_packet_length _ _ _ _ _ (port_exact_reads e) Hp Hread).
    lia.
Qed.

Lemma stream_lost_mid_frame_witness :
  exists p',
    read_rtcm_packet 2 (blocking_port [x00; xd3; x00; x03; x01])
    = (Raise device_lost, p').
Proof.
  assert (Hg : Forall (fun b => b <> xd3) [x00])
    by (repeat constructor; discriminate).
  assert (Hfuel : length [x00] < 2) by (simpl; lia).
  assert (Htail : length [x00; x03; x01]
                  < 5 + announced_length (xd3 :: [x00; x03; x01]))
    by (vm_compute; lia).
  exact (proj1 (stream_lost_mid_frame device_lost [x00] [x00; x03; x01] [] 2
                  Hg Hfuel Htail)).
Defined.

(** A read timeout is not the end of the stream.  The program opens its
    port without one; on a port that has one, a device that falls silent
    after [D3 00] makes the reader return those two bytes and raise
    nothing. *)
Example silent_device_with_timeout :
  read_rtcm_packet 1 (timeout_port [xd3; x00])
  = (Ok [xd3; x00], mkPort [] ShortRead [1; 2; 0; 3]).
Proof. vm_compute. reflexivity. Qed.

(** ** The published payload *)

Lemma int_to_bytes_big_fits t n :
  (0 <= t < 256 ^ Z.of_nat n)%Z ->
  int_to_bytes_big t n = Ok (big_endian n t).
Proof.
  intros Ht. unfold int_to_bytes_big.
  rewrite decide_False by lia. by rewrite decide_True by lia.
Qed.

Lemma int_to_bytes_big_overflow t n :
  ~ (0 <= t < 256 ^ Z.of_nat n)%Z ->
  exists e, exn_cls e = OverflowError /\ int_to_bytes_big t n = Raise e.
Proof.
  intros Ht. unfold int_to_bytes_big.
  destruct (decide (t < 0)%Z); [by exists negative_int|].
  rewrite decide_False by lia. by exists int_too_big.
Qed.

Section Payload.
Context {P : Type} `{ByteSource P}.
Variable env : Env.

Lemma get_timestamp_ms_bytes_run n (w : World P) :
  get_timestamp_ms_bytes env n w
  = (int_to_bytes_big (clock_ms env (ticks w)) n,
     mkWorld (ser w) (S (ticks w)) (trace w)).
Proof. done. Qed.

Lemma forward_packet_run fuel config (w : World P) f p' :
  read_rtcm_packet fuel (ser w) = (Ok f, p') ->
  forward_packet env fuel config w
  = match int_to_bytes_big (clock_ms env (ticks w)) 16 with
    | Ok stamp =>
        call env (Publish (topic config) (stamp ++ f) 1)
          (mkWorld p' (S (ticks w)) (trace w ++ [Framed f]))
    | Raise e => (Raise e, mkWorld p' (S (ticks w)) (trace w ++ [Framed f]))
    | Running => (Running, mkWorld p' (S (ticks w)) (trace w ++ [Framed f]))
    end.
Proof.
  intros Hread. unfold forward_packet, on_port. unfold_monad.
  rewrite Hread. unfold emit. cbn [ser ticks trace].
  rewrite get_timestamp_ms_bytes_run. cbn [ser ticks trace].
  by destruct (int_to_bytes_big _ 16).
Qed.
End Payload.

(** C5, as amended.  The time stamp is the big-endian encoding of the
    capture time in milliseconds, padded with zeros to exactly the width
    asked for, whatever its magnitude, as long as it fits the width; it is
    never truncated: a time that does not fit (or is negative) raises
    [OverflowError] and nothing is published.  The payload published for a
    frame is the 16-byte stamp followed at once by the bytes of the frame. *)
Theorem published_payload_format {P : Type} `{ByteSource P}
    env fuel config (w : World P) f p' :
  read_rtcm_packet fuel (ser w) = (Ok f, p') ->
  let t := clock_ms env (ticks w) in
  let framed := mkWorld p' (S (ticks w)) (trace w ++ [Framed f]) in
  (forall n,
     (0 <= t < 256 ^ Z.of_nat n)%Z ->
     fst (get_timestamp_ms_bytes env n w) = Ok (big_endian n t)
     /\ length (big_endian n t) = n
     /\ int_from_bytes_big (big_endian n t) = t)
  /\ (forall n,
        ~ (0 <= t < 256 ^ Z.of_nat n)%Z ->
        exists e, exn_cls e = OverflowError
                  /\ fst (get_timestamp_ms_bytes env n w) = Raise e)
  /\ ((0 <= t < 256 ^ 16)%Z ->
      let payload := big_endian 16 t ++ f in
      trace (snd (forward_packet env fuel config w))
      = trace w ++ [Framed f; Publish (topic config) payload 1]
      /\ length payload = 16 + length f
      /\ int_from_bytes_big (take 16 payload) = t
      /\ drop 16 payload = f)
  /\ (~ (0 <= t < 256 ^ 16)%Z ->
      exists e, exn_cls e = OverflowError
                /\ forward_packet env fuel config w = (Raise e, framed)).
Proof.
  intros Hread t framed.
  split; [|split; [|split]].
  - intros n Ht. rewrite get_timestamp_ms_bytes_run. cbn [fst].
    split; [by apply int_to_bytes_big_fits|].
    split; [apply big_endian_length|].
    rewrite int_from_bytes_big_endian. by apply Z.mod_small.
  - intros n Ht. rewrite get_timestamp_ms_bytes_run. cbn [fst].
    by apply int_to_bytes_big_overflow.
  - intros Ht payload.
    rewrite (forward_packet_run env fuel config w f p' Hread).
    fold t. rewrite (int_to_bytes_big_fits t 16) by done.
    unfold call. cbn [trace]. fold payload.
    assert (Hlen : length (big_endian 16 t) = 16) by apply big_endian_length.
    split; [|split; [|split]].
    + destruct (raises env _ _); cbn [snd trace]; by rewrite <- app_assoc.
    + unfold payload. rewrite length_app. lia.
    + unfold payload. rewrite take_app_length' by done.
      rewrite int_from_bytes_big_endian. by apply Z.mod_small.
    + unfold payload. by rewrite drop_app_length' by done.
  - intros Ht. rewrite (forward_packet_run env fuel config w f p' Hread).
    fold t. destruct (int_to_bytes_big_overflow t 16 Ht) as (e & He & ->).
    by exists e.
Qed.

(** [to_bytes] raises where a truncation would lose bytes: 256 does not come
    out as the one byte [00], and with a clock at [2 ^ 128] ms the frame is
    framed and nothing is published. *)
Lemma timestamp_never_truncated :
  big_endian 1 256 = [x00]
  /\ int_to_bytes_big 256 1 = Raise int_too_big
  /\ forward_packet late_clock 1
       (mkClientConfig "id" "broker" "ntrip/data" "ca" "certs" 8883)
       (mkWorld (blocking_port [xd3; x00; x00; xaa; xbb; xcc]) 0 [])
     = (Raise int_too_big,
        mkWorld (mkPort [] (Fails device_lost) [1; 2; 0; 3]) 1
          [Framed [xd3; x00; x00; xaa; xbb; xcc]])
  /\ ~ (forall n t, (0 <= t)%Z -> int_to_bytes_big t n = Ok (big_endian n t)).
Proof.
  split; [by vm_compute|]. split; [by vm_compute|]. split; [by vm_compute|].
  intros Hclaim. specialize (Hclaim 1 256%Z).
  vm_compute in Hclaim. by discriminate Hclaim.
Qed.

Lemma published_payload_format_witness :
  let f := [xd3; x00; x00; xaa; xbb; xcc] in
  let w := mkWorld (blocking_port f) 0 [] in
  let cfg := mkClientConfig "id" "broker" "ntrip/data" "ca" "certs" 8883 in
  let payload := big_endian 16 1700000000000 ++ f in
  trace (snd (forward_packet epoch_2023 1 cfg w))
  = [Framed f; Publish "ntrip/data" payload 1]
  /\ length payload = 22
  /\ int_from_bytes_big (take 16 payload) = 1700000000000%Z
  /\ drop 16 payload = f.
Proof.
  intros f w cfg payload.
  assert (Hread : read_rtcm_packet 1 (ser w)
                  = (Ok f, mkPort [] (Fails device_lost) [1; 2; 0; 3]))
    by (vm_compute; reflexivity).
  destruct (published_payload_format epoch_2023 1 cfg w f _ Hread)
    as (_ & _ & Hfit & _).
  apply Hfit. vm_compute. split; [discriminate|reflexivity].
Defined.

(** ** The credential check *)

Section Startup.
Context {P : Type} `{ByteSource P}.
Variable env : Env.

(** The check logs the files it finds and raises at the first one it does
    not find; it touches neither the port nor the clock. *)
Lemma check_files_run dir names (w : World P) :
  exists logs,
    Forall (fun ev => is_log ev = true) logs
    /\ snd (check_files env dir names w)
       = mkWorld (ser w) (ticks w) (trace w ++ logs)
    /\ ((Forall (fun file => path_join dir file ∈ files env) names
         /\ fst (check_files env dir names w) = Ok tt)
        \/ (exists file,
              file ∈ names
              /\ (path_join dir file ∉ files env)
              /\ fst (check_files env dir names w)
                 = Raise (Exn ArgumentTypeError
                            ("No " +:+ file +:+ " found in " +:+ dir)))).
Proof.
  revert w. induction names as [|file names IH]; intros w.
  - exists []. split; [constructor|]. rewrite app_nil_r.
    destruct w. split; [done|]. left. by split; [constructor|].
  - cbn [check_files]. destruct (decide (path_join dir file ∈ files env))
      as [Hin|Hout].
    + set (msg := Log INFO _).
      destruct (IH (mkWorld (ser w) (ticks w) (trace w ++ [msg])))
        as (logs & Hlogs & Hw & Hres).
      change ((emit msg;; check_files env dir names) w)
        with (check_files env dir names
                (mkWorld (ser w) (ticks w) (trace w ++ [msg]))).
      exists (msg :: logs). split; [by constructor|].
      split; [rewrite Hw; cbn [ser ticks trace]; by rewrite <- app_assoc|].
      destruct Hres as [[Hall Hok]|(f & Hf & Hmiss & Hraise)].
      * left. by split; [constructor|].
      * right. exists f. split; [by apply list_elem_of_further|]. done.
    + exists []. split; [constructor|]. rewrite app_nil_r.
      destruct w. split; [done|]. right. exists file.
      split; [apply list_elem_of_here|]. done.
Qed.

Lemma mtls_cert_path_run dir (w : World P) :
  exists logs,
    Forall (fun ev => is_log ev = true) logs
    /\ snd (mtls_cert_path env dir w)
       = mkWorld (ser w) (ticks w) (trace w ++ logs)
    /\ ((credentials_present env dir
         /\ fst (mtls_cert_path env dir w) = Ok dir)
        \/ (~ credentials_present env dir
            /\ exists msg,
                 fst (mtls_cert_path env dir w)
                 = Raise (Exn ArgumentTypeError msg))).
Proof.
  destruct (check_files_run dir cert_files w) as (logs & Hlogs & Hw & Hres).
  exists logs. split; [done|].
  unfold mtls_cert_path. unfold_monad.
  destruct (check_files env dir cert_files w) as [[[]| |] w1] eqn:E;
    cbn [fst snd] in *; (split; [done|]).
  - left. split; [|done].
    destruct Hres as [[Hall _]|(? & ? & ? & ?)]; [|done].
    intros file Hfile. by eapply Forall_forall in Hall.
  - right. destruct Hres as [[_ ?]|(file & Hfile & Hmiss & Hraise)]; [done|].
    simplify_eq. split; [|by eexists].
    intros Hall. by apply Hmiss, Hall.
  - destruct Hres as [[_ ?]|(? & ? & ? & ?)]; done.
Qed.
End Startup.

(** C6.  The check of the credential directory returns the directory exactly
    when [device.crt], [device.key] and [AmazonRootCA1.pem] all exist in it.
    When one is missing it raises [ArgumentTypeError]; the program then ends
    with the exit argparse makes of it, having done nothing but log: the
    serial port is not opened and no client is created or connected. *)
Theorem credentials_checked_first {P : Type} `{ByteSource P}
    env fuel argv (w : World P) :
  let dir := cert_path argv in
  (credentials_present env dir
   <-> exists w', mtls_cert_path env dir w = (Ok dir, w'))
  /\ (credentials_present env dir
      <-> (path_join dir "device.crt" ∈ files env)
          /\ (path_join dir "device.key" ∈ files env)
          /\ (path_join dir "AmazonRootCA1.pem" ∈ files env))
  /\ (~ credentials_present env dir ->
      (exists msg w',
         mtls_cert_path env dir w = (Raise (Exn ArgumentTypeError msg), w'))
      /\ exists logs,
           Forall (fun ev => is_log ev = true) logs
           /\ main env fuel argv w
              = (Raise (Exn SystemExit "2"),
                 mkWorld (ser w) (ticks w) (trace w ++ logs))).
Proof.
  intros dir.
  destruct (mtls_cert_path_run env dir w) as (logs & Hlogs & Hw & Hres).
  destruct (mtls_cert_path env dir w) as [o w1] eqn:E. cbn [fst snd] in *.
  split; [|split].
  - split.
    + intros Hall. destruct Hres as [[_ ->]|[Hno _]]; [by eexists|done].
    + intros [w' Hw']. destruct Hres as [[Hall _]|[_ [msg ->]]]; [done|].
      discriminate Hw'.
  - unfold credentials_present, cert_files. split.
    + intros Hall.
      split; [|split]; apply Hall, list_elem_of_In; simpl; tauto.
    + intros (Hc & Hk & Hr) file Hfile.
      repeat (apply elem_of_cons in Hfile as [->|Hfile]; [done|]).
      by apply elem_of_nil in Hfile.
  - intros Hno. destruct Hres as [[Hall _]|[_ [msg ->]]]; [done|].
    split; [by eexists _, _|].
    exists logs. split; [done|].
    unfold main, parse_args.
    apply bind_Raise_l. unfold try_except.
    unfold_monad. fold dir. rewrite E. subst w1.
    by rewrite decide_True by done.
Qed.

(** ** The client identifier *)

Lemma two_digits r : (10 <= r <= 99)%Z -> String.length (pretty r) = 2.
Proof.
  intros Hr.
  assert (Hall : forallb (fun k => bool_decide
                   (String.length (pretty (10 + Z.of_nat k)%Z) = 2)) (seq 0 90)
                 = true) by (vm_compute; reflexivity).
  rewrite forallb_forall in Hall.
  specialize (Hall (Z.to_nat (r - 10))).
  rewrite bool_decide_eq_true in Hall.
  replace (10 + Z.of_nat (Z.to_nat (r - 10)))%Z with r in Hall by lia.
  apply Hall, in_seq. lia.
Qed.

Lemma format_02_two_digits r : (10 <= r <= 99)%Z -> format_02 r = pretty r.
Proof.
  intros Hr. unfold format_02.
  rewrite decide_False; [done|]. rewrite two_digits by done. lia.
Qed.

(** C9, as amended.  The identifier is [rtcm_mqtt_streamer] followed by the
    two digits of the number drawn from 10..99: two instances have the same
    identifier exactly when they draw the same number, so identifiers are
    distinct only between instances whose draws differ. *)
Theorem client_id_by_draw env1 env2 args1 args2 :
  (10 <= randint_10_99 env1 <= 99)%Z ->
  (10 <= randint_10_99 env2 <= 99)%Z ->
  client_id (mqtt_config_of env1 args1)
  = "rtcm_mqtt_streamer" +:+ pretty (randint_10_99 env1)
  /\ (client_id (mqtt_config_of env1 args1)
      = client_id (mqtt_config_of env2 args2)
      <-> randint_10_99 env1 = randint_10_99 env2).
Proof.
  intros H1 H2. unfold mqtt_config_of. cbn [client_id].
  unfold make_client_id. rewrite !format_02_two_digits by done.
  split; [done|]. split.
  - intros Heq. by apply (inj (String.app _)), (inj pretty) in Heq.
  - by intros ->.
Qed.

Lemma client_id_by_draw_witness :
  client_id (mqtt_config_of epoch_2023
               (mkArgs "/dev/ttyACM0" 115200 "certs" "broker" 8883 "ntrip/data"))
  = "rtcm_mqtt_streamer10".
Proof.
  assert (Hr : (10 <= randint_10_99 epoch_2023 <= 99)%Z) by (simpl; lia).
  exact (proj1 (client_id_by_draw epoch_2023 epoch_2023
                  (mkArgs "/dev/ttyACM0" 115200 "certs" "broker" 8883
                     "ntrip/data")
                  (mkArgs "/dev/ttyACM0" 115200 "certs" "broker" 8883
                     "ntrip/data") Hr Hr)).
Defined.

(** Two instances on different serial ports that both draw 42 get the same
    identifier. *)
Lemma client_id_collision :
  ~ (forall env1 env2 args1 args2,
       (10 <= randint_10_99 env1 <= 99)%Z ->
       (10 <= randint_10_99 env2 <= 99)%Z ->
       client_id (mqtt_config_of env1 args1)
       <> client_id (mqtt_config_of env2 args2)).
Proof.
  intros Hclaim.
  apply (Hclaim (mkEnv ∅ (fun _ => 0%Z) 42 (fun _ _ => None))
           (mkEnv ∅ (fun _ => 1%Z) 42 (fun _ _ => None))
           (mkArgs "/dev/ttyACM0" 115200 "certs" "broker" 8883 "ntrip/data")
           (mkArgs "/dev/ttyACM1" 115200 "certs" "broker" 8883 "ntrip/data"));
    [simpl; lia|simpl; lia|reflexivity].
Qed.

Lemma credentials_checked_first_witness :
  let argv := mkArgs "/dev/ttyACM0" 115200 "certs" "broker" 8883 "ntrip/data" in
  let w := mkWorld (blocking_port [xd3; x00; x00; xaa; xbb; xcc]) 0 [] in
  exists logs,
    Forall (fun ev => is_log ev = true) logs
    /\ main no_key 5 argv w
       = (Raise (Exn SystemExit "2"), mkWorld (ser w) (ticks w) (trace w ++ logs)).
Proof.
  intros argv w.
  assert (Hno : ~ credentials_present no_key (cert_path argv)).
  { intros Hall.
    assert (Hkey : "device.key" ∈ cert_files)
      by (apply list_elem_of_In; simpl; tauto).
    apply Hall in Hkey. revert Hkey.
    apply (bool_decide_eq_false_1 _). vm_compute. reflexivity. }
  exact (proj2 (proj2 (proj2 (credentials_checked_first no_key 5 argv w)) Hno)).
Defined.

(** ** The streaming loop *)

Lemma bind_not_Ok {W A B} (m : M W A) (k : A -> M W B) w :
  (forall a, fst (m w) <> Ok a) ->
  snd ((m ≫= k) w) = snd (m w) /\ forall b, fst ((m ≫= k) w) <> Ok b.
Proof.
  unfold_monad. destruct (m w) as [[a| |] w1]; cbn [fst snd]; intros Hno;
    [by destruct (Hno a)| |]; done.
Qed.

Lemma framed_packets_turns topic turns :
  framed_packets (flat_map (turn_events topic) turns) = turns.*1.
Proof.
  induction turns as [|[f stamp] turns IH]; [done|].
  cbn [flat_map turn_events app fst snd fmap list_fmap].
  unfold framed_packets in *. cbn [omap list_omap]. by rewrite IH.
Qed.

Lemma published_packets_turns topic turns :
  Forall (fun turn : bytes * bytes => length turn.2 = 16) turns ->
  published_packets (flat_map (turn_events topic) turns) = turns.*1.
Proof.
  induction 1 as [|[f stamp] turns Hlen _ IH]; [done|].
  cbn [flat_map turn_events app fst snd fmap list_fmap] in *.
  unfold published_packets in *. cbn [omap list_omap].
  rewrite IH. by rewrite drop_app_length' by done.
Qed.

Section Loop.
Context {P : Type} `{ByteSource P}.
Variable env : Env.
Variable config : ClientConfig.

Lemma int_to_bytes_big_Ok t n stamp :
  int_to_bytes_big t n = Ok stamp -> length stamp = n.
Proof.
  unfold int_to_bytes_big. repeat case_decide; intros ?; simplify_eq.
  apply big_endian_length.
Qed.

(** A turn of the loop leaves the trace as it is (no packet), or adds the
    packet framed (no time stamp for it), or adds the packet framed and the
    call that publishes it. *)
Lemma forward_packet_cases fuel (w : World P) :
  let r := forward_packet env fuel config w in
  (trace (snd r) = trace w /\ fst r <> Ok tt)
  \/ (exists f, trace (snd r) = trace w ++ [Framed f] /\ fst r <> Ok tt)
  \/ (exists f stamp,
        length stamp = 16
        /\ trace (snd r) = trace w ++ turn_events (topic config) (f, stamp)).
Proof.
  intros r. subst r.
  destruct (read_rtcm_packet fuel (ser w)) as [[f| |] p'] eqn:E.
  - rewrite (forward_packet_run env fuel config w f p' E).
    destruct (int_to_bytes_big _ 16) as [stamp| |] eqn:Estamp.
    + right; right. exists f, stamp.
      split; [by eapply int_to_bytes_big_Ok|].
      unfold call, turn_events. cbn [trace fst snd].
      destruct (raises env _ _); cbn [snd trace]; by rewrite <- app_assoc.
    + right; left. by exists f.
    + right; left. by exists f.
  - left. unfold forward_packet, on_port. unfold_monad. by rewrite E.
  - left. unfold forward_packet, on_port. unfold_monad. by rewrite E.
Qed.

(** The events of the loop: whole turns, then at most one packet framed and
    not published.  The loop does not return. *)
Lemma streaming_trace fuel (w : World P) :
  exists turns last,
    trace (snd (streaming env fuel config w))
    = trace w ++ flat_map (turn_events (topic config)) turns ++ last
    /\ Forall (fun turn : bytes * bytes => length turn.2 = 16) turns
    /\ (last = [] \/ exists f, last = [Framed f])
    /\ fst (streaming env fuel config w) <> Ok tt.
Proof.
  revert w. induction fuel as [|fuel IH]; intros w.
  - exists [], []. cbn [flat_map app]. rewrite app_nil_r.
    split; [done|]. split; [constructor|]. split; [by left|done].
  - cbn [streaming].
    destruct (forward_packet_cases (S fuel) w)
      as [[Htr Hno]|[(f & Htr & Hno)|(f & stamp & Hlen & Htr)]].
    + destruct (bind_not_Ok (forward_packet env (S fuel) config)
                  (fun _ => streaming env fuel config) w) as [Hsnd Hfst].
      { by intros []. }
      exists [], []. cbn [flat_map app]. rewrite app_nil_r.
      split; [by rewrite Hsnd|]. split; [constructor|].
      split; [by left|apply Hfst].
    + destruct (bind_not_Ok (forward_packet env (S fuel) config)
                  (fun _ => streaming env fuel config) w) as [Hsnd Hfst].
      { by intros []. }
      exists [], [Framed f]. cbn [flat_map app].
      split; [by rewrite Hsnd|]. split; [constructor|].
      split; [right; by exists f|apply Hfst].
    + destruct (forward_packet env (S fuel) config w) as [o w1] eqn:E.
      cbn [fst snd] in Htr.
      destruct o as [[]| |].
      * rewrite (bind_Ok_l _ _ _ _ _ E).
        destruct (IH w1) as (turns & last & Htr1 & Hlens & Hlast & Hno).
        exists ((f, stamp) :: turns), last.
        split; [|split; [by constructor|done]].
        rewrite Htr1, Htr. cbn [flat_map]. by rewrite <- !app_assoc.
      * destruct (bind_not_Ok (forward_packet env (S fuel) config)
                    (fun _ => streaming env fuel config) w) as [Hsnd Hfst].
        { rewrite E. by intros []. }
        rewrite E in Hsnd. cbn [snd] in Hsnd.
        exists [(f, stamp)], []. cbn [flat_map]. rewrite !app_nil_r.
        split; [by rewrite Hsnd|]. split; [by repeat constructor|].
        split; [by left|apply Hfst].
      * destruct (bind_not_Ok (forward_packet env (S fuel) config)
                    (fun _ => streaming env fuel config) w) as [Hsnd Hfst].
        { rewrite E. by intros []. }
        rewrite E in Hsnd. cbn [snd] in Hsnd.
        exists [(f, stamp)], []. cbn [flat_map]. rewrite !app_nil_r.
        split; [by rewrite Hsnd|]. split; [by repeat constructor|].
        split; [by left|apply Hfst].
Qed.
End Loop.

(** The events of the streaming loop are whole turns, each a packet framed
    followed at once by the call that publishes its 16-byte stamp and that
    very packet, and after them at most one packet framed whose stamp could
    not be made. *)
Lemma published_prefix_of_framed {P : Type} `{ByteSource P}
    env fuel config (w : World P) :
  exists turns last,
    let new := flat_map (turn_events (topic config)) turns ++ last in
    trace (snd (streaming env fuel config w)) = trace w ++ new
    /\ (last = [] \/ exists f, last = [Framed f])
    /\ published_packets new = turns.*1
    /\ framed_packets new = turns.*1 ++ framed_packets last
    /\ published_packets new `prefix_of` framed_packets new
    /\ length (framed_packets new) <= S (length (published_packets new)).
Proof.
  destruct (streaming_trace env config fuel w)
    as (turns & last & Htr & Hlens & Hlast & _).
  exists turns, last. intros new.
  assert (Hpub : published_packets new = turns.*1).
  { unfold new, published_packets. rewrite omap_app.
    fold (published_packets (flat_map (turn_events (topic config)) turns)).
    rewrite published_packets_turns by done.
    destruct Hlast as [->|[f ->]]; cbn [omap list_omap]; by rewrite app_nil_r. }
  assert (Hfr : framed_packets new = turns.*1 ++ framed_packets last).
  { unfold new, framed_packets. rewrite omap_app.
    fold (framed_packets (flat_map (turn_events (topic config)) turns)).
    by rewrite framed_packets_turns. }
  split; [done|]. split; [done|]. split; [done|]. split; [done|].
  rewrite Hpub, Hfr. split; [by apply prefix_app_r|].
  rewrite length_app.
  destruct Hlast as [->|[f ->]]; cbn [framed_packets omap list_omap length]; lia.
Qed.

(** ** Leaving the loop *)

Section Shutdown.
Context {P : Type} `{ByteSource P}.
Variable env : Env.

Lemma draining_run (w : World P) :
  let t1 := trace w ++ [Log INFO "Disconnecting from MQTT"] in
  let t2 := t1 ++ [Disconnect; Log INFO "Closing serial port"] in
  draining env w
  = match raises env t1 Disconnect with
    | Some e => (Raise e, mkWorld (ser w) (ticks w) (t1 ++ [Disconnect]))
    | None =>
        (match raises env t2 SerialClose with
         | Some e => Raise e
         | None => Ok tt
         end, mkWorld (ser w) (ticks w) (t2 ++ [SerialClose]))
    end.
Proof.
  intros t1 t2. unfold draining, emit, call. unfold_monad.
  cbn [ser ticks trace]. fold t1.
  destruct (raises env t1 Disconnect); [done|].
  cbn [ser ticks trace].
  replace ((t1 ++ [Disconnect]) ++ [Log INFO "Closing serial port"])
    with t2 by (unfold t2; by rewrite <- app_assoc).
  by destruct (raises env t2 SerialClose).
Qed.

(** The [finally] clause after a block that has ended. *)
Lemma try_finally_draining (block : M (World P) unit) (w : World P) :
  let w1 := snd (block w) in
  let t1 := trace w1 ++ [Log INFO "Disconnecting from MQTT"] in
  let t2 := t1 ++ [Disconnect; Log INFO "Closing serial port"] in
  try_finally block (draining env) w
  = match fst (block w) with
    | Running => (Running, w1)
    | o1 =>
        match raises env t1 Disconnect with
        | Some e => (Raise e, mkWorld (ser w1) (ticks w1) (t1 ++ [Disconnect]))
        | None =>
            (match raises env t2 SerialClose with
             | Some e => Raise e
             | None => o1
             end, mkWorld (ser w1) (ticks w1) (t2 ++ [SerialClose]))
        end
    end.
Proof.
  intros w1 t1 t2. unfold try_finally. subst w1 t1 t2.
  destruct (block w) as [[[]|e1|] w1]; cbn [fst snd]; [| |done];
    rewrite draining_run;
    destruct (raises env _ Disconnect); [done| |done|];
    by destruct (raises env _ SerialClose).
Qed.

(** What the [except] clauses make of the way the [try] block ended: an
    [Exception] or a [KeyboardInterrupt] is logged and dropped, anything
    else goes on. *)
Lemma try_except_handlers (body : M (World P) unit) w :
  exists logs,
    Forall (fun ev => is_log ev = true \/ ev = Print) logs
    /\ snd (try_except body handlers w)
       = mkWorld (ser (snd (body w))) (ticks (snd (body w)))
           (trace (snd (body w)) ++ logs)
    /\ (fst (try_except body handlers w) = Running
        \/ fst (try_except body handlers w) = Ok tt
        \/ exists e,
             fst (try_except body handlers w) = Raise e
             /\ is_Exception e = false
             /\ exn_cls e <> KeyboardInterrupt).
Proof.
  unfold try_except. destruct (body w) as [[[]|e|] [p k tr]]; cbn [fst snd].
  - exists []. rewrite app_nil_r. split; [done|]. split; [done|]. by right; left.
  - unfold handlers. destruct (is_Exception e) eqn:Hcls.
    + eexists [_; _]. unfold emit. unfold_monad. cbn [fst snd ser ticks trace].
      rewrite <- app_assoc. split; [|split; [done|by right; left]].
      repeat constructor; by left.
    + destruct (decide (exn_cls e = KeyboardInterrupt)).
      * eexists [_; _]. unfold emit. unfold_monad.
        cbn [fst snd ser ticks trace]. rewrite <- app_assoc.
        split; [|split; [done|by right; left]].
        repeat constructor; by (left || right).
      * exists []. rewrite app_nil_r. split; [done|]. split; [done|].
        right; right. by exists e.
  - exists []. rewrite app_nil_r. split; [done|]. split; [done|]. by left.
Qed.

Lemma call_trace ev (w : World P) :
  snd (call env ev w) = mkWorld (ser w) (ticks w) (trace w ++ [ev]).
Proof. unfold call. by destruct (raises env _ _). Qed.

Lemma bind_trace {A B} (m : M (World P) A) (k : A -> M (World P) B) w :
  (exists new, trace (snd (m w)) = trace w ++ new) ->
  (forall a w1, exists new, trace (snd (k a w1)) = trace w1 ++ new) ->
  exists new, trace (snd ((m ≫= k) w)) = trace w ++ new.
Proof.
  intros [new1 H1] Hk. unfold_monad.
  destruct (m w) as [[a| |] w1]; cbn [snd] in *; [|by eauto..].
  destruct (Hk a w1) as [new2 H2]. exists (new1 ++ new2).
  by rewrite H2, H1, <- app_assoc.
Qed.

Lemma try_block_trace fuel config (w : World P) :
  exists new,
    trace (snd ((call env FlushOutput;; call env LoopStart;;
                 call env (Sleep 1);; streaming env fuel config) w))
    = trace w ++ new.
Proof.
  apply bind_trace; [rewrite call_trace; by eexists|intros _ w1].
  apply bind_trace; [rewrite call_trace; by eexists|intros _ w2].
  apply bind_trace; [rewrite call_trace; by eexists|intros _ w3].
  destruct (streaming_trace env config fuel w3) as (turns & last & Htr & _).
  by eexists.
Qed.
End Shutdown.

(** C7, as amended.  However the [try] block ends, the [finally] clause
    logs and calls [disconnect].  When that call returns, the clause logs
    and calls [close] on the serial port; an exception of [close] leaves the
    program, and otherwise the program ends normally unless the block ended
    with an exception that no [except] clause takes.  When [disconnect]
    raises, its exception leaves the program at once: it is neither caught
    nor logged, and [close] is not called. *)
Theorem draining_on_exit {P : Type} `{ByteSource P}
    env fuel config (w : World P) o w' :
  supervise env fuel config w = (o, w') ->
  o <> Running ->
  exists before,
    let t1 := trace w ++ before ++ [Log INFO "Disconnecting from MQTT"] in
    let t2 := t1 ++ [Disconnect; Log INFO "Closing serial port"] in
    match raises env t1 Disconnect with
    | Some e => o = Raise e /\ trace w' = t1 ++ [Disconnect]
    | None =>
        trace w' = t2 ++ [SerialClose]
        /\ match raises env t2 SerialClose with
           | Some e => o = Raise e
           | None =>
               o = Ok tt
               \/ exists e, o = Raise e
                            /\ is_Exception e = false
                            /\ exn_cls e <> KeyboardInterrupt
           end
    end.
Proof.
  unfold supervise.
  set (body := (call env FlushOutput;; _)).
  destruct (try_except_handlers body w) as (logs & _ & Hw1 & Hout).
  destruct (try_block_trace env fuel config w) as [new Hnew]. fold body in Hnew.
  intros Hsup Ho. exists (new ++ logs).
  rewrite (try_finally_draining env _ w) in Hsup.
  rewrite Hw1 in Hsup. cbn [ser ticks trace] in Hsup.
  rewrite Hnew in Hsup. rewrite <- ?app_assoc in Hsup.
  cbn zeta. rewrite <- ?app_assoc.
  destruct Hout as [Hrun|[Hok|(e1 & Hraise & Hcls & Hkbd)]].
  - rewrite Hrun in Hsup. by simplify_eq.
  - rewrite Hok in Hsup.
    destruct (raises env _ Disconnect) as [e|]; simplify_eq; cbn [trace].
    + by rewrite <- ?app_assoc.
    + rewrite <- ?app_assoc. split; [done|].
      destruct (raises env _ SerialClose); [done|by left].
  - rewrite Hraise in Hsup.
    destruct (raises env _ Disconnect) as [e|]; simplify_eq; cbn [trace].
    + by rewrite <- ?app_assoc.
    + rewrite <- ?app_assoc. split; [done|].
      destruct (raises env _ SerialClose); [done|right; by exists e1].
Qed.

Lemma draining_on_exit_witness :
  let cfg := mkClientConfig "id" "broker" "ntrip/data" "ca" "certs" 8883 in
  let w := mkWorld (blocking_port [xd3; x00; x00; xaa; xbb; xcc]) 0 [] in
  exists before,
    trace (snd (supervise epoch_2023 3 cfg w))
    = ((trace w ++ before ++ [Log INFO "Disconnecting from MQTT"])
         ++ [Disconnect; Log INFO "Closing serial port"]) ++ [SerialClose].
Proof.
  intros cfg w.
  assert (Hout : fst (supervise epoch_2023 3 cfg w) = Ok tt)
    by (vm_compute; reflexivity).
  destruct (supervise epoch_2023 3 cfg w) as [o w'] eqn:Hsup.
  cbn [fst snd] in *.
  assert (Ho : o <> Running) by (rewrite Hout; discriminate).
  destruct (draining_on_exit epoch_2023 3 cfg w o w' Hsup Ho) as [before Hend].
  exists before. exact (proj1 Hend).
Defined.

(** When [disconnect] raises, its exception ends the program and the serial
    port is never closed. *)
Lemma disconnect_failure_skips_close :
  let cfg := mkClientConfig "id" "broker" "ntrip/data" "ca" "certs" 8883 in
  let w := mkWorld (blocking_port [xd3; x00; x00; xaa; xbb; xcc]) 0 [] in
  fst (supervise bad_disconnect 3 cfg w) = Raise disconnect_failed
  /\ last (trace (snd (supervise bad_disconnect 3 cfg w))) = Some Disconnect
  /\ (SerialClose ∉ trace (snd (supervise bad_disconnect 3 cfg w)))
  /\ ~ (forall env fuel config (w0 : World Port) o w',
          supervise env fuel config w0 = (o, w') ->
          o <> Running ->
          SerialClose ∈ trace w'
          /\ forall e, o = Raise e -> is_Exception e = false).
Proof.
  intros cfg w.
  assert (Hclose : SerialClose ∉ trace (snd (supervise bad_disconnect 3 cfg w)))
    by (apply (bool_decide_eq_false_1 _); vm_compute; reflexivity).
  split; [by vm_compute|]. split; [by vm_compute|]. split; [done|].
  intros Hclaim.
  destruct (supervise bad_disconnect 3 cfg w) as [o w'] eqn:Hsup.
  assert (Hout : o = Raise disconnect_failed).
  { change o with (fst (o, w')). rewrite <- Hsup. by vm_compute. }
  destruct (Hclaim bad_disconnect 3 cfg w o w' Hsup) as [Hin _].
  - rewrite Hout. discriminate.
  - by apply Hclose.
Qed.

(** ** Frames fed one after the other *)

Lemma read_rtcm_packet_lost e rq fuel :
  read_rtcm_packet (S fuel) (mkPort [] (Fails e) rq)
  = (Raise e, mkPort [] (Fails e) (rq ++ [1])).
Proof.
  unfold read_rtcm_packet. apply bind_Raise_l.
  cbn [find_preamble]. apply bind_Raise_l.
  unfold read, Port_source. by rewrite port_read_starved by (simpl; lia).
Qed.

(** Frames [F1 .. Fn] on the wire, then the loss of the device: the loop
    publishes stamp and frame for [F1], ..., [Fn], in this order, and ends
    with the exception of the port. *)
Lemma streaming_feed env config frames e rq k tr fuel :
  Forall (fun f => is_frame f = true) frames ->
  (forall i, (0 <= clock_ms env i < 256 ^ 16)%Z) ->
  (forall t ev, raises env t ev = None) ->
  length frames < fuel ->
  let w := mkWorld (mkPort (concat frames) (Fails e) rq) k tr in
  let stamps :=
    (fun i => big_endian 16 (clock_ms env i)) <$> seq k (length frames) in
  fst (streaming env fuel config w) = Raise e
  /\ trace (snd (streaming env fuel config w))
     = tr ++ flat_map (turn_events (topic config)) (zip frames stamps).
Proof.
  intros Hframes Hclock Hquiet. revert rq k tr fuel.
  induction Hframes as [|f frames Hf _ IH]; intros rq k tr fuel Hfuel;
    (destruct fuel as [|fuel]; [simpl in Hfuel; lia|]); cbn zeta.
  - cbn [streaming concat length seq fmap list_fmap zip zip_with flat_map].
    rewrite app_nil_r.
    assert (Hturn : forward_packet env (S fuel) config
                      (mkWorld (mkPort [] (Fails e) rq) k tr)
                    = (Raise e, mkWorld (mkPort [] (Fails e) (rq ++ [1])) k tr)).
    { unfold forward_packet, on_port. apply bind_Raise_l. cbn [ser].
      by rewrite read_rtcm_packet_lost. }
    by rewrite (bind_Raise_l _ _ _ _ _ Hturn).
  - cbn [streaming concat length].
    pose proof (read_rtcm_packet_port [] f (concat frames) (Fails e) rq (S fuel)
                  (Forall_nil_2 _) Hf ltac:(simpl; lia)) as Hread.
    cbn [app length replicate] in Hread.
    pose proof (forward_packet_run env (S fuel) config
                  (mkWorld (mkPort (f ++ concat frames) (Fails e) rq) k tr)
                  f _ Hread) as Hturn.
    cbn [ticks trace] in Hturn.
    rewrite (int_to_bytes_big_fits (clock_ms env k) 16) in Hturn
      by apply Hclock.
    unfold call in Hturn. rewrite Hquiet in Hturn. cbn [ser ticks trace] in Hturn.
    rewrite (bind_Ok_l _ _ _ _ _ Hturn).
    destruct (IH (rq ++ [1; 2; announced_length f; 3]) (S k)
                ((tr ++ [Framed f])
                   ++ [Publish (topic config)
                         (big_endian 16 (clock_ms env k) ++ f) 1]) fuel
                ltac:(simpl in Hfuel; lia)) as [Hout Htr].
    split; [exact Hout|].
    rewrite Htr. cbn [seq fmap list_fmap zip zip_with flat_map turn_events fst snd].
    by rewrite <- !app_assoc.
Qed.

Example three_frames_in_order :
  let F1 := [xd3; x00; x01; x11; xa1; xb1; xc1] in
  let F2 := [xd3; x00; x00; xa2; xb2; xc2] in
  let F3 := [xd3; xfc; x02; x31; x32; xa3; xb3; xc3] in
  let cfg := mkClientConfig "id" "broker" "ntrip/data" "ca" "certs" 8883 in
  let w := mkWorld (blocking_port (F1 ++ [xff] ++ F2 ++ F3)) 0 [] in
  framed_packets (trace (snd (streaming epoch_2023 9 cfg w))) = [F1; F2; F3]
  /\ published_packets (trace (snd (streaming epoch_2023 9 cfg w))) = [F1; F2; F3]
  /\ fst (streaming epoch_2023 9 cfg w) = Raise device_lost.
Proof. vm_compute. done. Qed.

(** ** The scenarios run *)

(** A frame with an empty payload has six bytes. *)
Example zero_length_frame :
  read_rtcm_packet 1 (blocking_port [xd3; x00; x00; xaa; xbb; xcc])
  = (Ok [xd3; x00; x00; xaa; xbb; xcc],
     mkPort [] (Fails device_lost) [1; 2; 0; 3])
  /\ consumed 1 (blocking_port [xd3; x00; x00; xaa; xbb; xcc]) = Some 6
  /\ consumed_past_preamble 1 (blocking_port [xd3; x00; x00; xaa; xbb; xcc])
     = Some 5.
Proof. vm_compute. done. Qed.

(** The device is lost after the preamble and one byte of the length field:
    nothing is framed or published, the error is logged, and the program
    disconnects and closes the port. *)
Example lost_in_length_field :
  supervise epoch_2023 3
    (mkClientConfig "id" "broker" "ntrip/data" "ca" "certs" 8883)
    (mkWorld (blocking_port [xd3; x00]) 0 [])
  = (Ok tt,
     mkWorld (mkPort [] (Fails device_lost) [1; 2]) 0
       [FlushOutput; LoopStart; Sleep 1;
        Log ERROR
          "Fatal error: device reports readiness to read but returned no data";
        Log ERROR "Shutting down...";
        Log INFO "Disconnecting from MQTT"; Disconnect;
        Log INFO "Closing serial port"; SerialClose]).
Proof. vm_compute. reflexivity. Qed.

(** Ctrl-C while the port waits for bytes: a clean shutdown. *)
Example interrupted_while_reading :
  supervise epoch_2023 3
    (mkClientConfig "id" "broker" "ntrip/data" "ca" "certs" 8883)
    (mkWorld (mkPort [xd3] (Fails (Exn KeyboardInterrupt EmptyString)) []) 0 [])
  = (Ok tt,
     mkWorld (mkPort [] (Fails (Exn KeyboardInterrupt EmptyString)) [1; 2]) 0
       [FlushOutput; LoopStart; Sleep 1;
        Print; Log INFO "Received KeyboardInterrupt";
        Log INFO "Disconnecting from MQTT"; Disconnect;
        Log INFO "Closing serial port"; SerialClose]).
Proof. vm_compute. reflexivity. Qed.


(** * Further properties *)

(** ** The length field and the time stamp as numbers *)

Lemma byte_of_Z_val b : byte_of_Z (byte_val b) = b.
Proof.
  unfold byte_of_Z. pose proof (byte_val_range b).
  rewrite Z.mod_small by done. unfold byte_val.
  by rewrite N2Z.id, Byte.of_to_N.
Qed.

Lemma int_from_bytes_big_bound bs :
  (0 <= int_from_bytes_big bs < 256 ^ Z.of_nat (length bs))%Z.
Proof.
  induction bs as [|b bs IH] using rev_ind; [change (0 <= 0 < 1)%Z; lia|].
  rewrite int_from_bytes_big_snoc, length_app. cbn [length].
  rewrite Nat.add_1_r, Nat2Z.inj_succ, Z.pow_succ_r by lia.
  pose proof (byte_val_range b). lia.
Qed.

(** X1.  The six reserved bits do not count: the payload length is the two
    low bits of the first byte of the field times 256, plus the second byte.
    Fields that differ in reserved bits only announce the same length. *)
Theorem reserved_bits_ignored :
  (forall hi lo,
     message_length [hi; lo] = (byte_val hi mod 4 * 256 + byte_val lo)%Z)
  /\ (forall hi hi' lo,
        (byte_val hi mod 4 = byte_val hi' mod 4)%Z ->
        message_length [hi; lo] = message_length [hi'; lo]).
Proof.
  assert (Hformula : forall hi lo,
            message_length [hi; lo] = (byte_val hi mod 4 * 256 + byte_val lo)%Z).
  { intros hi lo. rewrite message_length_two.
    pose proof (byte_val_range hi). pose proof (byte_val_range lo).
    pose proof (Z.mod_pos_bound (byte_val hi) 4 ltac:(lia)).
    rewrite (Z.div_mod (byte_val hi) 4) at 1 by lia.
    replace ((4 * (byte_val hi / 4) + byte_val hi mod 4) * 256 + byte_val lo)%Z
      with ((byte_val hi mod 4 * 256 + byte_val lo)
            + (byte_val hi / 4) * 1024)%Z by lia.
    rewrite Z_mod_plus_full. apply Z.mod_small. lia. }
  split; [done|]. intros hi hi' lo Heq. by rewrite !Hformula, Heq.
Qed.

(** X2.  Encoding inverts decoding: a byte string read as a big-endian
    number and written back over as many bytes is the byte string; the
    conversion does not raise. *)
Theorem to_bytes_from_bytes bs :
  int_to_bytes_big (int_from_bytes_big bs) (length bs) = Ok bs.
Proof.
  rewrite int_to_bytes_big_fits by apply int_from_bytes_big_bound.
  f_equal. induction bs as [|b bs IH] using rev_ind; [done|].
  rewrite int_from_bytes_big_snoc, length_app. cbn [length].
  rewrite Nat.add_1_r. cbn [big_endian].
  pose proof (byte_val_range b).
  replace ((int_from_bytes_big bs * 256 + byte_val b) / 256)%Z
    with (int_from_bytes_big bs)
    by (apply (Z.div_unique _ _ _ (byte_val b)); lia).
  rewrite IH. f_equal. f_equal.
  rewrite <- (byte_of_Z_val b) at 2. unfold byte_of_Z.
  rewrite Z.add_comm, Z_mod_plus_full. done.
Qed.

(** ** A stream without a preamble *)

Lemma bind_Running_l {W A B} (m : M W A) (k : A -> M W B) w w' :
  m w = (Running, w') -> (m ≫= k) w = (Running, w').
Proof. intros Hm. unfold_monad. by rewrite Hm. Qed.

(** The scan over bytes that are not the preamble: it takes them one by one
    and then meets the starved port. *)
Lemma find_preamble_garbage garbage m rq fuel :
  Forall (fun b => b <> xd3) garbage ->
  find_preamble fuel (mkPort garbage m rq)
  = if decide (fuel <= length garbage) then
      (Running, mkPort (drop fuel garbage) m (rq ++ replicate fuel 1))
    else
      match m with
      | Fails e =>
          (Raise e, mkPort [] m (rq ++ replicate (S (length garbage)) 1))
      | ShortRead => (Running, mkPort [] m (rq ++ replicate fuel 1))
      | Blocks =>
          (Running, mkPort [] m (rq ++ replicate (S (length garbage)) 1))
      end.
Proof.
  intros Hg. revert rq fuel.
  induction Hg as [|g garbage Hne _ IH]; intros rq [|fuel].
  - simpl. unfold_monad. by rewrite app_nil_r.
  - rewrite decide_False by (simpl; lia).
    cbn [find_preamble]. unfold_monad. unfold read, Port_source.
    rewrite port_read_starved by (simpl; lia).
    destruct m; [done| |done].
    rewrite decide_False by done.
    change (@find_preamble Port port_read fuel)
      with (@find_preamble Port Port_source fuel).
    rewrite find_preamble_dry. cbn [replicate]. by rewrite <- app_assoc.
  - simpl. unfold_monad. by rewrite app_nil_r.
  - cbn [find_preamble]. unfold_monad. unfold read, Port_source.
    rewrite (port_read_le 1) by (simpl; lia).
    change (take 1 (g :: garbage)) with [g].
    change (drop 1 (g :: garbage)) with garbage.
    rewrite decide_False by congruence.
    change (@find_preamble Port port_read fuel)
      with (@find_preamble Port Port_source fuel).
    rewrite IH. cbn [length drop replicate].
    destruct (decide (fuel <= length garbage));
      [rewrite decide_True by lia|rewrite decide_False by lia];
      [|destruct m]; by rewrite <- app_assoc.
Qed.

(** X3.  From a stream that holds no [0xD3] the reader returns no frame,
    whatever the fuel.  With fuel enough to reach the end of the stream it
    raises what the port raises there; on a port that blocks it stays
    blocked; on a port with a timeout it never stops: it goes on asking for
    one byte, as many times as it has fuel. *)
Theorem no_preamble_no_frame garbage m rq fuel :
  Forall (fun b => b <> xd3) garbage ->
  let r := read_rtcm_packet fuel (mkPort garbage m rq) in
  (forall f, fst r <> Ok f)
  /\ (length garbage < fuel ->
      fst r = match m with Fails e => Raise e | _ => Running end
      /\ rx (snd r) = [])
  /\ (m = ShortRead -> requested (snd r) = rq ++ replicate fuel 1).
Proof.
  intros Hg r. subst r. unfold read_rtcm_packet.
  pose proof (find_preamble_garbage garbage m rq fuel Hg) as Hscan.
  destruct (decide (fuel <= length garbage)).
  - rewrite (bind_Running_l _ _ _ _ Hscan). cbn [fst snd requested].
    split; [done|]. split; [lia|done].
  - destruct m.
    + rewrite (bind_Raise_l _ _ _ _ _ Hscan). cbn [fst snd rx].
      split; [done|]. by split.
    + rewrite (bind_Running_l _ _ _ _ Hscan). cbn [fst snd rx requested].
      split; [done|]. by split.
    + rewrite (bind_Running_l _ _ _ _ Hscan). cbn [fst snd rx].
      split; [done|]. by split.
Qed.

Lemma no_preamble_no_frame_witness :
  (forall f,
     fst (read_rtcm_packet 5 (timeout_port [x00; xff; x7f])) <> Ok f)
  /\ fst (read_rtcm_packet 5 (timeout_port [x00; xff; x7f])) = Running
  /\ requested (snd (read_rtcm_packet 5 (timeout_port [x00; xff; x7f])))
     = [1; 1; 1; 1; 1].
Proof.
  assert (Hg : Forall (fun b => b <> xd3) [x00; xff; x7f])
    by (repeat constructor; discriminate).
  destruct (no_preamble_no_frame [x00; xff; x7f] ShortRead [] 5 Hg)
    as (Hno & Hend & Hask).
  split; [exact Hno|]. split.
  - apply Hend. simpl. lia.
  - exact (Hask eq_refl).
Defined.

(** ** The credential check, file by file *)

Section CertCheck.
Context {P : Type} `{ByteSource P}.
Variable env : Env.

Lemma emit_then {B} ev (k : M (World P) B) (w : World P) :
  (emit ev;; k) w = k (mkWorld (ser w) (ticks w) (trace w ++ [ev])).
Proof. done. Qed.

Lemma call_then {B} ev (k : M (World P) B) (w : World P) :
  (call env ev;; k) w
  = match raises env (trace w) ev with
    | Some e => (Raise e, mkWorld (ser w) (ticks w) (trace w ++ [ev]))
    | None => k (mkWorld (ser w) (ticks w) (trace w ++ [ev]))
    end.
Proof.
  unfold call. unfold_monad. by destruct (raises env (trace w) ev).
Qed.

Lemma bind_assoc {A B C} (m : M (World P) A) (f : A -> M (World P) B)
    (g : B -> M (World P) C) w :
  ((m ≫= f) ≫= g) w = (m ≫= (fun a => f a ≫= g)) w.
Proof. unfold_monad. by destruct (m w) as [[a| |] w1]. Qed.

(** The files before the first missing one are logged; the missing one is
    named in the exception; the files after it are not looked at. *)
Lemma check_files_first_missing dir found file rest (w : World P) :
  Forall (fun name => path_join dir name ∈ files env) found ->
  path_join dir file ∉ files env ->
  check_files env dir (found ++ file :: rest) w
  = (Raise (Exn ArgumentTypeError ("No " +:+ file +:+ " found in " +:+ dir)),
     mkWorld (ser w) (ticks w) (trace w ++ (using_log dir <$> found))).
Proof.
  intros Hfound Hmiss. revert w.
  induction Hfound as [|name found Hin _ IH]; intros w.
  - cbn [app check_files fmap list_fmap]. rewrite decide_False by done.
    rewrite app_nil_r. by destruct w.
  - cbn [app check_files fmap list_fmap]. rewrite decide_True by done.
    rewrite emit_then, IH. cbn [ser ticks trace].
    by rewrite <- app_assoc.
Qed.

Lemma check_files_all_found dir names (w : World P) :
  Forall (fun name => path_join dir name ∈ files env) names ->
  check_files env dir names w
  = (Ok tt, mkWorld (ser w) (ticks w) (trace w ++ (using_log dir <$> names))).
Proof.
  intros Hfound. revert w.
  induction Hfound as [|name found Hin _ IH]; intros w.
  - cbn [check_files fmap list_fmap]. rewrite app_nil_r. by destruct w.
  - cbn [check_files fmap list_fmap]. rewrite decide_True by done.
    rewrite emit_then, IH. cbn [ser ticks trace].
    by rewrite <- app_assoc.
Qed.
End CertCheck.

(** X4.  The credential files are looked for in the order [device.crt],
    [device.key], [AmazonRootCA1.pem].  The check stops at the first one
    that is missing: its exception names that file and the directory, the
    files found before it have been logged, and the files after it are
    neither looked for nor logged. *)
Theorem cert_error_names_first_missing {P : Type} `{ByteSource P}
    env dir found file rest (w : World P) :
  cert_files = found ++ file :: rest ->
  Forall (fun name => path_join dir name ∈ files env) found ->
  path_join dir file ∉ files env ->
  mtls_cert_path env dir w
  = (Raise (Exn ArgumentTypeError ("No " +:+ file +:+ " found in " +:+ dir)),
     mkWorld (ser w) (ticks w)
       (trace w ++ ((fun name => Log INFO ("Using " +:+ name +:+ " from " +:+ dir))
                      <$> found))).
Proof.
  intros Hsplit Hfound Hmiss. unfold mtls_cert_path. rewrite Hsplit.
  apply bind_Raise_l. by apply check_files_first_missing.
Qed.

Lemma cert_error_names_first_missing_witness :
  mtls_cert_path no_key "certs" (mkWorld (blocking_port []) 0 [])
  = (Raise (Exn ArgumentTypeError "No device.key found in certs"),
     mkWorld (blocking_port []) 0 [Log INFO "Using device.crt from certs"]).
Proof.
  assert (Hsplit : cert_files = ["device.crt"] ++ "device.key" :: ["AmazonRootCA1.pem"])
    by reflexivity.
  assert (Hfound : Forall (fun name => path_join "certs" name ∈ files no_key)
                     ["device.crt"]).
  { constructor; [|constructor].
    apply (bool_decide_eq_true_1 _). vm_compute. reflexivity. }
  assert (Hmiss : path_join "certs" "device.key" ∉ files no_key).
  { apply (bool_decide_eq_false_1 _). vm_compute. reflexivity. }
  exact (cert_error_names_first_missing no_key "certs" ["device.crt"]
           "device.key" ["AmazonRootCA1.pem"] (mkWorld (blocking_port []) 0 [])
           Hsplit Hfound Hmiss).
Defined.

(** ** The shape of a run *)

Section Shape.
Context {P : Type} `{ByteSource P}.
Variable env : Env.

Lemma parse_args_present argv (w : World P) :
  credentials_present env (cert_path argv) ->
  parse_args env argv w
  = (Ok argv, mkWorld (ser w) (ticks w)
                (trace w ++ (using_log (cert_path argv) <$> cert_files))).
Proof.
  intros Hall. unfold parse_args, try_except, mtls_cert_path. unfold_monad.
  rewrite check_files_all_found by (by apply Forall_forall).
  by destruct argv.
Qed.

Lemma parse_args_missing argv (w : World P) :
  ~ credentials_present env (cert_path argv) ->
  exists logs,
    Forall (fun ev => is_log ev = true) logs
    /\ parse_args env argv w
       = (Raise (Exn SystemExit "2"),
          mkWorld (ser w) (ticks w) (trace w ++ logs)).
Proof.
  intros Hno.
  destruct (mtls_cert_path_run env (cert_path argv) w)
    as (logs & Hlogs & Hw & [[Hall _]|[_ [msg Hraise]]]); [done|].
  exists logs. split; [done|].
  unfold parse_args, try_except. unfold_monad.
  destruct (mtls_cert_path env (cert_path argv) w) as [o w1].
  cbn [fst snd] in *. subst. by rewrite decide_True by done.
Qed.

(** The program from the parsed arguments to the [try] statement: each call
    either raises, which ends the program there, or hands over to the
    next. *)
Lemma main_startup fuel argv (w : World P) :
  credentials_present env (cert_path argv) ->
  let at_ n :=
    mkWorld (ser w) (ticks w)
      (trace w ++ (using_log (cert_path argv) <$> cert_files)
               ++ take n (startup_events argv)) in
  main env fuel argv w
  = match raises env (trace (at_ 1)) (SerialOpen (serial_port argv) (baud_rate argv)) with
    | Some e => (Raise e, at_ 2)
    | None =>
    match raises env (trace (at_ 2)) NewClient with
    | Some e => (Raise e, at_ 3)
    | None =>
    match raises env (trace (at_ 3))
            (TlsSet (path_join (cert_path argv) "AmazonRootCA1.pem")
               (path_join (cert_path argv) "device.crt")
               (path_join (cert_path argv) "device.key")) with
    | Some e => (Raise e, at_ 4)
    | None =>
    match raises env (trace (at_ 4)) (Connect (mqtt_uri argv) 8883) with
    | Some e => (Raise e, at_ 5)
    | None => supervise env fuel (mqtt_config_of env argv) (at_ 5)
    end end end end.
Proof.
  intros Hall at_. unfold main.
  rewrite (bind_Ok_l _ _ _ _ _ (parse_args_present argv w Hall)).
  rewrite emit_then. cbn [ser ticks trace].
  rewrite call_then. cbn [ser ticks trace].
  unfold at_, startup_events. cbn [take trace]. rewrite <- !app_assoc.
  cbn [app].
  destruct (raises env _ (SerialOpen _ _)); [done|].
  cbn zeta. unfold create_client. cbn [cert_dir ca_cert_path broker port mqtt_config_of].
  rewrite bind_assoc, call_then. cbn [ser ticks trace]. rewrite <- !app_assoc.
  cbn [app].
  destruct (raises env _ NewClient); [done|].
  rewrite bind_assoc, call_then. cbn [ser ticks trace]. rewrite <- !app_assoc.
  cbn [app].
  destruct (raises env _ (TlsSet _ _ _)); [done|].
  rewrite call_then. cbn [ser ticks trace]. rewrite <- !app_assoc.
  cbn [app].
  by destruct (raises env _ (Connect _ _)).
Qed.
End Shape.

Section Guarded.
Context {P : Type} `{ByteSource P}.
Variable env : Env.

Lemma loop_shape_nil topic : loop_shape topic [].
Proof. exists [], []. split; [done|]. split; [constructor|by left]. Qed.

Lemma try_block_shape fuel config (w : World P) :
  exists pre loop,
    trace (snd ((call env FlushOutput;; call env LoopStart;;
                 call env (Sleep 1);; streaming env fuel config) w))
    = trace w ++ pre ++ loop
    /\ pre `prefix_of` settle_events
    /\ (loop <> [] -> pre = settle_events)
    /\ loop_shape (topic config) loop.
Proof.
  rewrite call_then.
  destruct (raises env _ FlushOutput).
  { exists [FlushOutput], []. cbn [snd trace]. rewrite app_nil_r.
    split; [done|]. split; [by exists [LoopStart; Sleep 1]|].
    split; [done|apply loop_shape_nil]. }
  rewrite call_then. cbn [ser ticks trace].
  destruct (raises env _ LoopStart).
  { exists [FlushOutput; LoopStart], []. cbn [snd trace].
    rewrite app_nil_r, <- app_assoc.
    split; [done|]. split; [by exists [Sleep 1]|].
    split; [done|apply loop_shape_nil]. }
  rewrite call_then. cbn [ser ticks trace].
  destruct (raises env _ (Sleep 1)).
  { exists settle_events, []. cbn [snd trace].
    rewrite app_nil_r, <- !app_assoc.
    split; [done|]. split; [done|]. split; [done|apply loop_shape_nil]. }
  destruct (streaming_trace env config fuel
              (mkWorld (ser w) (ticks w)
                 (((trace w ++ [FlushOutput]) ++ [LoopStart]) ++ [Sleep 1])))
    as (turns & last & Htr & Hlens & Hlast & _).
  exists settle_events, (flat_map (turn_events (topic config)) turns ++ last).
  split; [rewrite Htr; cbn [trace]; by rewrite <- !app_assoc|].
  split; [done|]. split; [done|]. by exists turns, last.
Qed.

Lemma supervise_shape fuel config (w : World P) :
  exists guarded,
    trace (snd (supervise env fuel config w)) = trace w ++ guarded
    /\ guarded_shape (topic config) guarded.
Proof.
  unfold supervise. set (body := (call env FlushOutput;; _)).
  destruct (try_block_shape fuel config w) as (pre & loop & Hbody & Hpre & Hfull & Hloop).
  fold body in Hbody.
  destruct (try_except_handlers body w) as (logs & Hlogs & Hw1 & _).
  rewrite (try_finally_draining env _ w). cbn zeta. rewrite Hw1.
  cbn [ser ticks trace]. rewrite Hbody.
  assert (Hlogs' : Forall (fun ev => is_teardown ev = true) logs).
  { eapply Forall_impl; [exact Hlogs|]. intros ev [Hlog| ->]; [|done].
    by destruct ev. }
  assert (Hshape : forall drain,
            Forall (fun ev => is_teardown ev = true) drain ->
            guarded_shape (topic config) (pre ++ loop ++ logs ++ drain)).
  { intros drain Hdrain. exists pre, loop, (logs ++ drain).
    split; [done|]. split; [done|]. split; [done|]. split; [done|].
    by apply Forall_app. }
  assert (Hcut : Forall (fun ev => is_teardown ev = true)
                   [Log INFO "Disconnecting from MQTT"; Disconnect])
    by (by repeat constructor).
  assert (Hall : Forall (fun ev => is_teardown ev = true) draining_events)
    by (by repeat constructor).
  destruct (fst (try_except body handlers w)) as [[]|e1|].
  - destruct (raises env _ Disconnect).
    + exists (pre ++ loop ++ logs
                ++ [Log INFO "Disconnecting from MQTT"; Disconnect]).
      split; [cbn [snd trace]; by rewrite <- !app_assoc|by apply Hshape].
    + exists (pre ++ loop ++ logs ++ draining_events).
      split; [cbn [snd trace]; by rewrite <- !app_assoc|by apply Hshape].
  - destruct (raises env _ Disconnect).
    + exists (pre ++ loop ++ logs
                ++ [Log INFO "Disconnecting from MQTT"; Disconnect]).
      split; [cbn [snd trace]; by rewrite <- !app_assoc|by apply Hshape].
    + exists (pre ++ loop ++ logs ++ draining_events).
      split; [cbn [snd trace]; by rewrite <- !app_assoc|by apply Hshape].
  - exists (pre ++ loop ++ logs ++ []).
    split; [cbn [snd trace]; by rewrite app_nil_r, <- !app_assoc|].
    apply Hshape. constructor.
Qed.

(** Every run of the program has the shape of [program_shape]. *)
Lemma main_shape fuel argv (w : World P) :
  exists evs,
    trace (snd (main env fuel argv w)) = trace w ++ evs
    /\ program_shape env argv evs.
Proof.
  destruct (decide (credentials_present env (cert_path argv))) as [Hall|Hno].
  - pose proof (main_startup env fuel argv w Hall) as Hmain. cbn zeta in Hmain.
    set (logs := using_log (cert_path argv) <$> cert_files) in *.
    assert (Hlogs : Forall (fun ev => is_log ev = true) logs)
      by (by repeat constructor).
    assert (Hstop : forall n,
              n <= 5 ->
              program_shape env argv (logs ++ take n (startup_events argv))).
    { intros n Hn. exists logs, (take n (startup_events argv)).
      split; [done|]. split; [done|]. split; [done|].
      left. apply prefix_take. }
    rewrite Hmain.
    destruct (raises env _ (SerialOpen _ _));
      [eexists; split; [done|by apply (Hstop 2); lia]|].
    destruct (raises env _ NewClient);
      [eexists; split; [done|by apply (Hstop 3); lia]|].
    destruct (raises env _ (TlsSet _ _ _));
      [eexists; split; [done|by apply (Hstop 4); lia]|].
    destruct (raises env _ (Connect _ _));
      [eexists; split; [done|by apply (Hstop 5); lia]|].
    destruct (supervise_shape fuel (mqtt_config_of env argv)
                (mkWorld (ser w) (ticks w)
                   (trace w ++ logs ++ take 5 (startup_events argv))))
      as (guarded & Htr & Hshape).
    exists (logs ++ startup_events argv ++ guarded).
    split; [rewrite Htr; cbn [trace]; by rewrite <- !app_assoc|].
    exists logs, (startup_events argv ++ guarded).
    split; [done|]. split; [done|]. split; [done|].
    right. by exists guarded.
  - destruct (parse_args_missing env argv w Hno) as (logs & Hlogs & Hparse).
    unfold main. rewrite (bind_Raise_l _ _ _ _ _ Hparse).
    exists logs. split; [done|].
    exists logs, []. rewrite app_nil_r.
    split; [done|]. split; [done|]. split; [done|].
    left. apply prefix_nil.
Qed.
End Guarded.

(** ** What every run does and does not do *)

Lemma loop_shape_elem topic loop ev :
  loop_shape topic loop ->
  ev ∈ loop ->
  (exists f, ev = Framed f)
  \/ (exists f stamp, length stamp = 16 /\ ev = Publish topic (stamp ++ f) 1).
Proof.
  intros (turns & last & -> & Hlens & Hlast) [Hin|Hin]%elem_of_app.
  - apply list_elem_of_In, in_flat_map in Hin as ([f stamp] & Hturn & Hev).
    apply list_elem_of_In in Hturn, Hev.
    eapply Forall_forall in Hlens; [|exact Hturn].
    unfold turn_events in Hev. cbn [fst snd] in *.
    apply elem_of_cons in Hev as [->|Hev]; [left; by eexists|].
    apply elem_of_cons in Hev as [->|Hev]; [right; by eexists _, _|].
    by apply elem_of_nil in Hev.
  - destruct Hlast as [->|[f ->]]; [by apply elem_of_nil in Hin|].
    apply elem_of_cons in Hin as [->|Hin]; [left; by eexists|].
    by apply elem_of_nil in Hin.
Qed.

(** Where an event of a run can come from. *)
Lemma program_shape_elem env argv evs ev :
  program_shape env argv evs ->
  ev ∈ evs ->
  is_log ev = true
  \/ (credentials_present env (cert_path argv)
      /\ (ev ∈ startup_events argv
          \/ ev ∈ settle_events
          \/ is_teardown ev = true
          \/ (exists f, ev = Framed f)
          \/ (exists f stamp,
                length stamp = 16
                /\ ev = Publish (mqtt_topic argv) (stamp ++ f) 1))).
Proof.
  intros (logs & rest & -> & Hlogs & Hcred & Hrest) [Hin|Hin]%elem_of_app.
  { left. by eapply Forall_forall in Hlogs. }
  right. split; [apply Hcred; intros ->; by apply elem_of_nil in Hin|].
  destruct Hrest as [[more Hpre]|(guarded & -> & Hshape)].
  { left. rewrite Hpre. apply elem_of_app. by left. }
  apply elem_of_app in Hin as [Hin|Hin]; [by left|].
  destruct Hshape as (pre & loop & tail & -> & [more Hpre] & _ & Hloop & Htail).
  apply elem_of_app in Hin as [Hin|Hin].
  { right; left. rewrite Hpre. apply elem_of_app. by left. }
  apply elem_of_app in Hin as [Hin|Hin].
  - destruct (loop_shape_elem _ _ _ Hloop Hin) as [?|?]; by eauto 6.
  - right; right; left. by eapply Forall_forall in Htail.
Qed.

Lemma startup_events_elem argv ev :
  ev ∈ startup_events argv ->
  (exists msg, ev = Log INFO msg)
  \/ ev = SerialOpen (serial_port argv) (baud_rate argv)
  \/ ev = NewClient
  \/ ev = TlsSet (path_join (cert_path argv) "AmazonRootCA1.pem")
            (path_join (cert_path argv) "device.crt")
            (path_join (cert_path argv) "device.key")
  \/ ev = Connect (mqtt_uri argv) 8883.
Proof.
  unfold startup_events. intros Hin.
  repeat (apply elem_of_cons in Hin as [->|Hin]; [by eauto 6|]).
  by apply elem_of_nil in Hin.
Qed.

Lemma settle_events_elem ev :
  ev ∈ settle_events -> ev = FlushOutput \/ ev = LoopStart \/ ev = Sleep 1.
Proof.
  unfold settle_events. intros Hin.
  repeat (apply elem_of_cons in Hin as [->|Hin]; [by eauto|]).
  by apply elem_of_nil in Hin.
Qed.

(** X5.  Every file the program hands to [tls_set] has been checked: in
    any run, a call of [tls_set] has the CA file [AmazonRootCA1.pem], the
    certificate [device.crt] and the key [device.key] of the directory given
    on the command line, and all three exist. *)
Theorem tls_files_were_checked {P : Type} `{ByteSource P}
    env fuel argv (w : World P) new ca crt key :
  trace (snd (main env fuel argv w)) = trace w ++ new ->
  TlsSet ca crt key ∈ new ->
  ca = path_join (cert_path argv) "AmazonRootCA1.pem"
  /\ crt = path_join (cert_path argv) "device.crt"
  /\ key = path_join (cert_path argv) "device.key"
  /\ ca ∈ files env /\ crt ∈ files env /\ key ∈ files env.
Proof.
  intros Htr Hin.
  destruct (main_shape env fuel argv w) as (evs & Hevs & Hshape).
  rewrite Htr in Hevs. apply app_inv_head in Hevs as ->.
  destruct (program_shape_elem _ _ _ _ Hshape Hin)
    as [?|[Hcred [Hs|[Hs|[?|[[f ?]|(f & stamp & _ & ?)]]]]]]; try done.
  - apply startup_events_elem in Hs
      as [[msg ?]|[?|[?|[?|?]]]]; simplify_eq.
    split; [done|]. split; [done|]. split; [done|].
    split; [|split]; apply Hcred, list_elem_of_In; simpl; tauto.
  - apply settle_events_elem in Hs as [?|[?|?]]; done.
Qed.

Lemma tls_files_were_checked_witness :
  let w := mkWorld (blocking_port [xd3; x00]) 0 [] in
  let ca := "certs/AmazonRootCA1.pem" in
  let crt := "certs/device.crt" in
  let key := "certs/device.key" in
  TlsSet ca crt key ∈ trace (snd (main with_credentials 3 plain_port_argv w))
  /\ ca ∈ files with_credentials
  /\ crt ∈ files with_credentials
  /\ key ∈ files with_credentials.
Proof.
  intros w ca crt key.
  assert (Htr : trace (snd (main with_credentials 3 plain_port_argv w))
                = trace w ++ trace (snd (main with_credentials 3 plain_port_argv w)))
    by reflexivity.
  assert (Hin : TlsSet ca crt key
                ∈ trace (snd (main with_credentials 3 plain_port_argv w)))
    by (apply (bool_decide_eq_true_1 _); vm_compute; reflexivity).
  split; [exact Hin|].
  exact (proj2 (proj2 (proj2
           (tls_files_were_checked with_credentials 3 plain_port_argv w _
              ca crt key Htr Hin)))).
Defined.

(** X6.  The option [--mqtt-port] has no effect: the program does the same
    whatever port is given, and every call of [connect] goes to the host of
    [--mqtt-uri] on port 8883. *)
Theorem mqtt_port_is_ignored {P : Type} `{ByteSource P}
    env fuel argv (w : World P) :
  (forall other,
     main env fuel
       (mkArgs (serial_port argv) (baud_rate argv) (cert_path argv)
          (mqtt_uri argv) other (mqtt_topic argv)) w
     = main env fuel argv w)
  /\ (forall new host port,
        trace (snd (main env fuel argv w)) = trace w ++ new ->
        Connect host port ∈ new ->
        host = mqtt_uri argv /\ port = 8883%Z).
Proof.
  split.
  - intros other. unfold main, parse_args, try_except. unfold_monad.
    cbn [cert_path].
    by destruct (mtls_cert_path env (cert_path argv) w) as [[dir| |] w1].
  - intros new host port Htr Hin.
    destruct (main_shape env fuel argv w) as (evs & Hevs & Hshape).
    rewrite Htr in Hevs. apply app_inv_head in Hevs as ->.
    destruct (program_shape_elem _ _ _ _ Hshape Hin)
      as [?|[Hcred [Hs|[Hs|[?|[[f ?]|(f & stamp & _ & ?)]]]]]]; try done.
    + apply startup_events_elem in Hs
        as [[msg ?]|[?|[?|[?|?]]]]; by simplify_eq.
    + apply settle_events_elem in Hs as [?|[?|?]]; done.
Qed.

Lemma mqtt_port_is_ignored_witness :
  let w := mkWorld (blocking_port [xd3; x00]) 0 [] in
  mqtt_port plain_port_argv = 1883%Z
  /\ Connect "broker" 8883 ∈ trace (snd (main with_credentials 3 plain_port_argv w))
  /\ "broker" = mqtt_uri plain_port_argv.
Proof.
  intros w. split; [reflexivity|].
  assert (Htr : trace (snd (main with_credentials 3 plain_port_argv w))
                = trace w ++ trace (snd (main with_credentials 3 plain_port_argv w)))
    by reflexivity.
  assert (Hin : Connect "broker" 8883
                ∈ trace (snd (main with_credentials 3 plain_port_argv w)))
    by (apply (bool_decide_eq_true_1 _); vm_compute; reflexivity).
  split; [exact Hin|].
  exact (proj1 (proj2 (mqtt_port_is_ignored with_credentials 3 plain_port_argv w)
                  _ "broker" 8883%Z Htr Hin)).
Defined.

(** X7.  Every call of [publish] in any run is on the topic of
    [--mqtt-topic], with QoS 1, and carries at least the 16 bytes of the time
    stamp. *)
Theorem publish_topic_and_qos {P : Type} `{ByteSource P}
    env fuel argv (w : World P) new tpc payload qos :
  trace (snd (main env fuel argv w)) = trace w ++ new ->
  Publish tpc payload qos ∈ new ->
  tpc = mqtt_topic argv /\ qos = 1%Z /\ 16 <= length payload.
Proof.
  intros Htr Hin.
  destruct (main_shape env fuel argv w) as (evs & Hevs & Hshape).
  rewrite Htr in Hevs. apply app_inv_head in Hevs as ->.
  destruct (program_shape_elem _ _ _ _ Hshape Hin)
    as [?|[Hcred [Hs|[Hs|[?|[[f ?]|(f & stamp & Hlen & ?)]]]]]]; try done.
  - apply startup_events_elem in Hs
      as [[msg ?]|[?|[?|[?|?]]]]; by simplify_eq.
  - apply settle_events_elem in Hs as [?|[?|?]]; done.
  - simplify_eq. split; [done|]. split; [done|]. rewrite length_app. lia.
Qed.

Lemma publish_topic_and_qos_witness :
  let w := mkWorld (blocking_port [xd3; x00; x00; xaa; xbb; xcc]) 0 [] in
  let payload := big_endian 16 1700000000000 ++ [xd3; x00; x00; xaa; xbb; xcc] in
  Publish "ntrip/data" payload 1
    ∈ trace (snd (main with_credentials 3 plain_port_argv w))
  /\ "ntrip/data" = mqtt_topic plain_port_argv
  /\ 1%Z = 1%Z
  /\ 16 <= length payload.
Proof.
  intros w payload.
  assert (Htr : trace (snd (main with_credentials 3 plain_port_argv w))
                = trace w ++ trace (snd (main with_credentials 3 plain_port_argv w)))
    by reflexivity.
  assert (Hin : Publish "ntrip/data" payload 1
                ∈ trace (snd (main with_credentials 3 plain_port_argv w)))
    by (apply (bool_decide_eq_true_1 _); vm_compute; reflexivity).
  split; [exact Hin|].
  exact (publish_topic_and_qos with_credentials 3 plain_port_argv w _
           "ntrip/data" payload 1%Z Htr Hin).
Defined.

(** X8.  Nothing is published before the program is set up: in any run with
    a call of [publish], the events before it begin with the log of the
    credential check, followed by the whole start-up (the serial port opened,
    the client created, [tls_set], [connect]) and by [flushOutput],
    [loop_start] and the sleep of one second, in this order. *)
Theorem publish_after_startup {P : Type} `{ByteSource P}
    env fuel argv (w : World P) new tpc payload qos :
  trace (snd (main env fuel argv w)) = trace w ++ new ->
  Publish tpc payload qos ∈ new ->
  exists logs more,
    new = logs ++ startup_events argv ++ settle_events ++ more
    /\ Forall (fun ev => is_log ev = true) logs
    /\ Publish tpc payload qos ∈ more
    /\ credentials_present env (cert_path argv).
Proof.
  intros Htr Hin.
  destruct (main_shape env fuel argv w) as (evs & Hevs & Hshape).
  rewrite Htr in Hevs. apply app_inv_head in Hevs as ->.
  destruct Hshape as (logs & rest & -> & Hlogs & Hcred & Hrest).
  apply elem_of_app in Hin as [Hin|Hin];
    [eapply Forall_forall in Hlogs; [|exact Hin]; done|].
  assert (Hne : rest <> []) by (intros ->; by apply elem_of_nil in Hin).
  destruct Hrest as [[rest' Hpre]|(guarded & -> & Hshape)].
  { assert (Hs : Publish tpc payload qos ∈ startup_events argv)
      by (rewrite Hpre; apply elem_of_app; by left).
    apply startup_events_elem in Hs as [[msg ?]|[?|[?|[?|?]]]]; done. }
  apply elem_of_app in Hin as [Hs|Hin];
    [apply startup_events_elem in Hs as [[msg ?]|[?|[?|[?|?]]]]; done|].
  destruct Hshape as (pre & loop & tail & -> & [pre' Hpre] & Hfull & Hloop & Htail).
  apply elem_of_app in Hin as [Hs|Hin].
  { assert (Hs' : Publish tpc payload qos ∈ settle_events)
      by (rewrite Hpre; apply elem_of_app; by left).
    apply settle_events_elem in Hs' as [?|[?|?]]; done. }
  apply elem_of_app in Hin as [Hin|Hin];
    [|eapply Forall_forall in Htail; [|exact Hin]; done].
  rewrite Hfull by (intros ->; by apply elem_of_nil in Hin).
  exists logs, (loop ++ tail). split; [done|]. split; [done|].
  split; [apply elem_of_app; by left|by apply Hcred].
Qed.

Lemma publish_after_startup_witness :
  let w := mkWorld (blocking_port [xd3; x00; x00; xaa; xbb; xcc]) 0 [] in
  let payload := big_endian 16 1700000000000 ++ [xd3; x00; x00; xaa; xbb; xcc] in
  exists logs more,
    trace (snd (main with_credentials 3 plain_port_argv w))
    = logs ++ startup_events plain_port_argv ++ settle_events ++ more
    /\ Forall (fun ev => is_log ev = true) logs
    /\ Publish "ntrip/data" payload 1 ∈ more
    /\ credentials_present with_credentials (cert_path plain_port_argv).
Proof.
  intros w payload.
  assert (Htr : trace (snd (main with_credentials 3 plain_port_argv w))
                = trace w ++ trace (snd (main with_credentials 3 plain_port_argv w)))
    by reflexivity.
  assert (Hin : Publish "ntrip/data" payload 1
                ∈ trace (snd (main with_credentials 3 plain_port_argv w)))
    by (apply (bool_decide_eq_true_1 _); vm_compute; reflexivity).
  exact (publish_after_startup with_credentials 3 plain_port_argv w _
           "ntrip/data" payload 1%Z Htr Hin).
Defined.

(** X9.  A failure of [connect] leaves the serial port open: the port has
    been opened before the client is created, and the calls that create and
    connect the client are outside the [try] statement.  When [connect]
    raises, its exception ends the program; nothing is logged for it and
    neither [disconnect] nor [close] is called. *)
Theorem connect_failure_leaves_port_open {P : Type} `{ByteSource P}
    env fuel argv (w : World P) e :
  credentials_present env (cert_path argv) ->
  (forall tr host port, raises env tr (Connect host port) = Some e) ->
  (forall tr ev, (forall host port, ev <> Connect host port) ->
                 raises env tr ev = None) ->
  let new := ((fun name => Log INFO ("Using " +:+ name +:+ " from "
                                      +:+ cert_path argv)) <$> cert_files)
             ++ startup_events argv in
  main env fuel argv w
  = (Raise e, mkWorld (ser w) (ticks w) (trace w ++ new))
  /\ SerialOpen (serial_port argv) (baud_rate argv) ∈ new
  /\ last new = Some (Connect (mqtt_uri argv) 8883)
  /\ (SerialClose ∉ new)
  /\ (Disconnect ∉ new).
Proof.
  intros Hcred Hconn Hquiet new.
  split.
  - rewrite (main_startup env fuel argv w Hcred). cbn zeta.
    rewrite !Hquiet by done. by rewrite Hconn.
  - subst new. split; [|split; [done|]].
    + apply elem_of_app. right. unfold startup_events.
      apply list_elem_of_In. simpl. tauto.
    + split; intros Hin; apply elem_of_app in Hin as [Hin|Hin].
      * apply list_elem_of_fmap in Hin as (name & ? & _). done.
      * apply startup_events_elem in Hin as [[msg ?]|[?|[?|[?|?]]]]; done.
      * apply list_elem_of_fmap in Hin as (name & ? & _). done.
      * apply startup_events_elem in Hin as [[msg ?]|[?|[?|[?|?]]]]; done.
Qed.

Lemma credentials_in_certs :
  credentials_present with_credentials "certs"
  /\ credentials_present no_broker "certs".
Proof.
  split; intros file Hfile;
    repeat (apply elem_of_cons in Hfile as [->|Hfile];
            [apply (bool_decide_eq_true_1 _); vm_compute; reflexivity|]);
    by apply elem_of_nil in Hfile.
Qed.

Lemma connect_failure_leaves_port_open_witness :
  let w := mkWorld (blocking_port [xd3; x00; x00; xaa; xbb; xcc]) 0 [] in
  main no_broker 3 plain_port_argv w
  = (Raise connection_refused,
     mkWorld (ser w) (ticks w)
       [Log INFO "Using device.crt from certs";
        Log INFO "Using device.key from certs";
        Log INFO "Using AmazonRootCA1.pem from certs";
        Log INFO "Attaching to /dev/ttyACM0 with baud rate 115200";
        SerialOpen "/dev/ttyACM0" 115200;
        NewClient;
        TlsSet "certs/AmazonRootCA1.pem" "certs/device.crt" "certs/device.key";
        Connect "broker" 8883]).
Proof.
  intros w.
  assert (Hconn : forall tr host port,
            raises no_broker tr (Connect host port) = Some connection_refused)
    by reflexivity.
  assert (Hquiet : forall tr ev, (forall host port, ev <> Connect host port) ->
                                 raises no_broker tr ev = None).
  { intros tr ev Hev. destruct ev as [| | | | |h p| | | | | | |]; try reflexivity.
    by destruct (Hev h p). }
  exact (proj1 (connect_failure_leaves_port_open no_broker 3 plain_port_argv w
                  connection_refused (proj2 credentials_in_certs) Hconn Hquiet)).
Defined.

(** ** A whole run, end to end *)

Section Feed.
Variable env : Env.

Lemma try_except_raise (body : M (World Port) unit) w e w1 :
  body w = (Raise e, w1) ->
  try_except body handlers w
  = (if is_Exception e || bool_decide (exn_cls e = KeyboardInterrupt)
     then Ok tt else Raise e,
     mkWorld (ser w1) (ticks w1) (trace w1 ++ handler_events e)).
Proof.
  intros Hbody. unfold try_except, handlers, handler_events. rewrite Hbody.
  destruct (is_Exception e); cbn [orb].
  - unfold emit. unfold_monad. cbn [ser ticks trace]. by rewrite <- app_assoc.
  - destruct (decide (exn_cls e = KeyboardInterrupt)) as [Hk|Hk];
      [rewrite bool_decide_eq_true_2 by done
      |rewrite bool_decide_eq_false_2 by done].
    + unfold emit. unfold_monad. cbn [ser ticks trace]. by rewrite <- app_assoc.
    + rewrite app_nil_r. by destruct w1.
Qed.

(** Frames on the wire and then the loss of the device, with a clock that
    fits and libraries that do not raise: the [try] statement from its first
    line to the end of the [finally] clause. *)
Lemma supervise_feed config frames e rq k tr fuel :
  Forall (fun f => is_frame f = true) frames ->
  (forall i, (0 <= clock_ms env i < 256 ^ 16)%Z) ->
  (forall t ev, raises env t ev = None) ->
  length frames < fuel ->
  let w := mkWorld (mkPort (concat frames) (Fails e) rq) k tr in
  let stamps :=
    (fun i => big_endian 16 (clock_ms env i)) <$> seq k (length frames) in
  fst (supervise env fuel config w)
  = (if is_Exception e || bool_decide (exn_cls e = KeyboardInterrupt)
     then Ok tt else Raise e)
  /\ trace (snd (supervise env fuel config w))
     = tr ++ settle_events
          ++ flat_map (turn_events (topic config)) (zip frames stamps)
          ++ handler_events e ++ draining_events.
Proof.
  intros Hframes Hclock Hquiet Hfuel w stamps.
  destruct (streaming_feed env config frames e rq k (tr ++ settle_events) fuel
              Hframes Hclock Hquiet Hfuel) as [Hout Htr].
  fold stamps in Htr.
  unfold supervise. set (body := (call env FlushOutput;; _)).
  assert (Hbody : body w
                  = streaming env fuel config
                      (mkWorld (mkPort (concat frames) (Fails e) rq) k
                         (tr ++ settle_events))).
  { unfold body, w. rewrite call_then, Hquiet. cbn [ser ticks trace].
    rewrite call_then, Hquiet. cbn [ser ticks trace].
    rewrite call_then, Hquiet. cbn [ser ticks trace].
    unfold settle_events. by rewrite <- !app_assoc. }
  destruct (streaming env fuel config _) as [o w1] eqn:Hloop in Hbody, Hout, Htr.
  cbn [fst snd] in Hout, Htr. subst o.
  pose proof (try_except_raise body w e w1 Hbody) as Hexc.
  rewrite (try_finally_draining env _ w). cbn zeta. rewrite Hexc.
  cbn [fst snd ser ticks trace]. rewrite !Hquiet.
  destruct (is_Exception e || bool_decide (exn_cls e = KeyboardInterrupt));
    cbn [fst snd trace]; (split; [done|]);
    rewrite Htr; unfold draining_events; by rewrite <- !app_assoc.
Qed.
End Feed.

(** X10.  A whole run.  With the three credential files in place, a clock
    that fits 16 bytes, libraries that do not raise and a device that sends
    the well-formed frames [F1 .. Fn] and is then lost with the exception
    [e], the program logs the files, opens the port, creates and connects the
    client, settles, publishes stamp and frame for [F1], ..., [Fn] in this
    order, handles [e], disconnects and closes the port.  It ends normally
    when [e] is an [Exception] or a [KeyboardInterrupt]. *)
Theorem main_feed env argv frames e rq k tr fuel :
  credentials_present env (cert_path argv) ->
  Forall (fun f => is_frame f = true) frames ->
  (forall i, (0 <= clock_ms env i < 256 ^ 16)%Z) ->
  (forall t ev, raises env t ev = None) ->
  length frames < fuel ->
  let w := mkWorld (mkPort (concat frames) (Fails e) rq) k tr in
  let stamps :=
    (fun i => big_endian 16 (clock_ms env i)) <$> seq k (length frames) in
  fst (main env fuel argv w)
  = (if is_Exception e || bool_decide (exn_cls e = KeyboardInterrupt)
     then Ok tt else Raise e)
  /\ trace (snd (main env fuel argv w))
     = tr ++ ((fun name => Log INFO ("Using " +:+ name +:+ " from "
                                      +:+ cert_path argv)) <$> cert_files)
          ++ startup_events argv
          ++ [FlushOutput; LoopStart; Sleep 1]
          ++ flat_map (turn_events (mqtt_topic argv)) (zip frames stamps)
          ++ handler_events e
          ++ [Log INFO "Disconnecting from MQTT"; Disconnect;
              Log INFO "Closing serial port"; SerialClose].
Proof.
  intros Hcred Hframes Hclock Hquiet Hfuel w stamps. subst w.
  rewrite (main_startup env fuel argv _ Hcred). cbn zeta.
  rewrite !Hquiet. cbn [ser ticks trace].
  destruct (supervise_feed env (mqtt_config_of env argv) frames e rq k
              (tr ++ (using_log (cert_path argv) <$> cert_files)
                  ++ take 5 (startup_events argv)) fuel
              Hframes Hclock Hquiet Hfuel) as [Hout Htr].
  split; [exact Hout|].
  rewrite Htr. fold stamps.
  cbn [topic mqtt_config_of]. by rewrite <- !app_assoc.
Qed.

Lemma main_feed_witness :
  let F1 := [xd3; x00; x01; x11; xa1; xb1; xc1] in
  let F2 := [xd3; xfc; x00; xa2; xb2; xc2] in
  let w := mkWorld (blocking_port (F1 ++ F2)) 0 [] in
  fst (main with_credentials 3 plain_port_argv w) = Ok tt
  /\ trace (snd (main with_credentials 3 plain_port_argv w))
     = [Log INFO "Using device.crt from certs";
        Log INFO "Using device.key from certs";
        Log INFO "Using AmazonRootCA1.pem from certs";
        Log INFO "Attaching to /dev/ttyACM0 with baud rate 115200";
        SerialOpen "/dev/ttyACM0" 115200;
        NewClient;
        TlsSet "certs/AmazonRootCA1.pem" "certs/device.crt" "certs/device.key";
        Connect "broker" 8883;
        FlushOutput; LoopStart; Sleep 1;
        Framed F1;
        Publish "ntrip/data" (big_endian 16 1700000000000 ++ F1) 1;
        Framed F2;
        Publish "ntrip/data" (big_endian 16 1700000000001 ++ F2) 1;
        Log ERROR
          "Fatal error: device reports readiness to read but returned no data";
        Log ERROR "Shutting down...";
        Log INFO "Disconnecting from MQTT"; Disconnect;
        Log INFO "Closing serial port"; SerialClose].
Proof.
  intros F1 F2 w.
  assert (Hframes : Forall (fun f => is_frame f = true) [F1; F2])
    by (by repeat constructor).
  assert (Hclock : forall i, (0 <= clock_ms with_credentials i < 256 ^ 16)%Z).
  { intros i. cbn [clock_ms with_credentials].
    change (256 ^ 16)%Z with 340282366920938463463374607431768211456%Z. lia. }
  assert (Hquiet : forall t ev, raises with_credentials t ev = None)
    by reflexivity.
  assert (Hfuel : length [F1; F2] < 3) by (simpl; lia).
  exact (main_feed with_credentials plain_port_argv [F1; F2] device_lost [] 0 []
           3 (proj1 credentials_in_certs) Hframes Hclock Hquiet Hfuel).
Defined.

(** ** Stamps and sizes of what is published *)

Section Turns.
Context {P : Type} `{ByteSource P}.
Variable env : Env.
Variable config : ClientConfig.

Lemma read_rtcm_packet_keeps I fuel (s s' : P) f :
  exact_reads I -> I s -> read_rtcm_packet fuel s = (Ok f, s') -> I s'.
Proof.
  intros HI Hs
    (s1 & s2 & s3 & field & message & crc & Hpre & Hfield & Hmsg & Hcrc & _)
    %read_rtcm_packet_Ok.
  pose proof (find_preamble_keeps I _ _ _ _ HI Hs Hpre) as Hs1.
  destruct (HI _ _ _ _ Hs1 Hfield) as [_ Hs2].
  destruct (HI _ _ _ _ Hs2 Hmsg) as [_ Hs3].
  by destruct (HI _ _ _ _ Hs3 Hcrc).
Qed.

(** The turns of the loop one by one: the stamp of a turn is the clock read
    in that turn, the clock is read once for each packet framed, and what
    holds of every packet the reader returns holds of every packet framed. *)
Lemma streaming_turns (I : P -> Prop) (Q : bytes -> Prop) :
  (forall fuel s f s',
     I s -> read_rtcm_packet fuel s = (Ok f, s') -> Q f /\ I s') ->
  forall fuel (w : World P),
    I (ser w) ->
    exists turns last,
      trace (snd (streaming env fuel config w))
      = trace w ++ flat_map (turn_events (topic config)) turns ++ last
      /\ (last = [] \/ exists f, last = [Framed f])
      /\ turns.*2
         = (fun i => big_endian 16 (clock_ms env i))
             <$> seq (ticks w) (length turns)
      /\ Forall (fun i => (0 <= clock_ms env i < 256 ^ 16)%Z)
           (seq (ticks w) (length turns))
      /\ Forall Q turns.*1
      /\ ticks (snd (streaming env fuel config w))
         = ticks w + length turns + length last.
Proof.
  intros Hread fuel. induction fuel as [|fuel IH]; intros w Hw.
  { exists [], []. cbn [streaming snd flat_map app length seq fmap list_fmap].
    unfold_monad. cbn [snd]. rewrite ?app_nil_r.
    repeat (split; [done || by left || constructor|]). lia. }
  cbn [streaming].
  destruct (read_rtcm_packet (S fuel) (ser w)) as [[f| |] p'] eqn:E.
  - destruct (Hread _ _ _ _ Hw E) as [HQ Hp'].
    pose proof (forward_packet_run env (S fuel) config w f p' E) as Hturn.
    destruct (decide (0 <= clock_ms env (ticks w) < 256 ^ 16)%Z) as [Hfit|Hfit].
    + rewrite (int_to_bytes_big_fits _ 16) in Hturn by done.
      unfold call in Hturn. cbn [ser ticks trace] in Hturn.
      set (stamp := big_endian 16 (clock_ms env (ticks w))) in *.
      destruct (raises env _ _) as [e|].
      * rewrite (bind_Raise_l _ _ _ _ _ Hturn). cbn [snd trace ticks].
        exists [(f, stamp)], [].
        cbn [flat_map turn_events fst snd app length seq fmap list_fmap].
        rewrite ?app_nil_r, <- ?app_assoc.
        split; [done|]. split; [by left|]. split; [done|].
        split; [constructor; [done|constructor]|].
        split; [constructor; [done|constructor]|]. lia.
      * rewrite (bind_Ok_l _ _ _ _ _ Hturn).
        destruct (IH (mkWorld p' (S (ticks w))
                        ((trace w ++ [Framed f])
                           ++ [Publish (topic config) (stamp ++ f) 1])) Hp')
          as (turns & last & Htr & Hlast & Hstamps & Hfits & HQs & Hticks).
        cbn [ser ticks trace] in *.
        exists ((f, stamp) :: turns), last.
        cbn [flat_map turn_events fst snd app length seq fmap list_fmap].
        split; [rewrite Htr; by rewrite <- !app_assoc|].
        split; [done|]. split; [by rewrite Hstamps|].
        split; [by constructor|]. split; [by constructor|]. lia.
    + destruct (int_to_bytes_big_overflow _ 16 Hfit) as (e & _ & Hover).
      rewrite Hover in Hturn.
      rewrite (bind_Raise_l _ _ _ _ _ Hturn). cbn [snd trace ticks].
      exists [], [Framed f].
      cbn [flat_map app length seq fmap list_fmap].
      split; [done|]. split; [right; by exists f|]. split; [done|].
      split; [constructor|]. split; [constructor|]. lia.
  - assert (Hturn : forward_packet env (S fuel) config w
                    = (Raise e, mkWorld p' (ticks w) (trace w))).
    { unfold forward_packet, on_port. unfold_monad. by rewrite E. }
    rewrite (bind_Raise_l _ _ _ _ _ Hturn). cbn [snd trace ticks].
    exists [], []. cbn [flat_map app length seq fmap list_fmap].
    rewrite ?app_nil_r.
    split; [done|]. split; [by left|]. split; [done|].
    split; [constructor|]. split; [constructor|]. lia.
  - assert (Hturn : forward_packet env (S fuel) config w
                    = (Running, mkWorld p' (ticks w) (trace w))).
    { unfold forward_packet, on_port. unfold_monad. by rewrite E. }
    rewrite (bind_Running_l _ _ _ _ Hturn). cbn [snd trace ticks].
    exists [], []. cbn [flat_map app length seq fmap list_fmap].
    rewrite ?app_nil_r.
    split; [done|]. split; [by left|]. split; [done|].
    split; [constructor|]. split; [constructor|]. lia.
Qed.
End Turns.

(** X11.  The clock is read once for each packet framed, after the packet
    is complete.  The k-th packet published carries the k-th of these
    readings as its 16-byte stamp, and the stamp decodes back to the
    reading. *)
Theorem stamps_follow_clock {P : Type} `{ByteSource P}
    env fuel config (w : World P) :
  exists turns last,
    let new := flat_map (turn_events (topic config)) turns ++ last in
    trace (snd (streaming env fuel config w)) = trace w ++ new
    /\ (last = [] \/ exists f, last = [Framed f])
    /\ turns.*2
       = (fun i => big_endian 16 (clock_ms env i))
           <$> seq (ticks w) (length turns)
    /\ int_from_bytes_big <$> turns.*2
       = clock_ms env <$> seq (ticks w) (length turns)
    /\ ticks (snd (streaming env fuel config w))
       = ticks w + length (framed_packets new).
Proof.
  destruct (streaming_turns env config (fun _ => True) (fun _ => True)
              ltac:(done) fuel w I)
    as (turns & last & Htr & Hlast & Hstamps & Hfits & _ & Hticks).
  exists turns, last. cbn zeta.
  split; [done|]. split; [done|]. split; [done|]. split.
  - rewrite Hstamps, <- list_fmap_compose.
    apply Forall_fmap_ext_1. eapply Forall_impl; [exact Hfits|].
    intros i Hi. unfold compose. rewrite int_from_bytes_big_endian.
    by apply Z.mod_small.
  - rewrite Hticks. unfold framed_packets. rewrite omap_app.
    fold (framed_packets (flat_map (turn_events (topic config)) turns)).
    rewrite framed_packets_turns, length_app, length_fmap.
    destruct Hlast as [->|[f ->]]; cbn [omap list_omap length]; lia.
Qed.

(** X12.  On a source that reads exactly, every payload handed to [publish]
    has between 22 and 1045 bytes: the 16 bytes of the stamp, then a frame
    that starts with [0xD3] and has 6 bytes more than its length field
    announces. *)
Theorem published_payload_bounds {P : Type} `{ByteSource P}
    env fuel config (w : World P) (I : P -> Prop) new tpc payload qos :
  exact_reads I ->
  I (ser w) ->
  trace (snd (streaming env fuel config w)) = trace w ++ new ->
  Publish tpc payload qos ∈ new ->
  22 <= length payload <= 1045
  /\ payload !! 16 = Some xd3
  /\ length payload = 22 + announced_length (drop 16 payload).
Proof.
  intros HI Hw Htr Hin.
  destruct (streaming_turns env config I
              (fun f => head f = Some xd3
                        /\ length f = 6 + announced_length f
                        /\ 6 <= length f <= 1029)
              ltac:(intros fuel' s f s' Hs Hread;
                    split; [split; [by eapply read_rtcm_packet_head
                                   |by eapply read_rtcm_packet_length]
                           |by eapply read_rtcm_packet_keeps]) fuel w Hw)
    as (turns & last & Htr' & Hlast & Hstamps & _ & HQ & _).
  rewrite Htr in Htr'. apply app_inv_head in Htr' as ->.
  assert (Hlens : Forall (fun turn : bytes * bytes => length turn.2 = 16) turns).
  { assert (Hl : Forall (fun s : bytes => length s = 16) turns.*2).
    { rewrite Hstamps. apply Forall_fmap, Forall_true.
      intros i. apply big_endian_length. }
    apply Forall_fmap in Hl. exact Hl. }
  apply elem_of_app in Hin as [Hin|Hin].
  - apply list_elem_of_In, in_flat_map in Hin as ([f stamp] & Hturn & Hev).
    apply list_elem_of_In in Hturn, Hev.
    eapply Forall_forall in Hlens; [|exact Hturn]. cbn [snd] in Hlens.
    assert (Hf : f ∈ turns.*1)
      by (apply list_elem_of_fmap; by exists (f, stamp)).
    eapply Forall_forall in HQ; [|exact Hf].
    destruct HQ as (Hhead & Hlen & Hrange).
    unfold turn_events in Hev. cbn [fst snd] in Hev.
    apply elem_of_cons in Hev as [?|Hev]; [done|].
    apply elem_of_cons in Hev as [?|Hev]; [|by apply elem_of_nil in Hev].
    simplify_eq.
    rewrite length_app, drop_app_length' by done.
    split; [lia|]. split; [|lia].
    rewrite lookup_app_r by lia. rewrite Hlens, Nat.sub_diag.
    by destruct f.
  - destruct Hlast as [->|[f ->]]; [by apply elem_of_nil in Hin|].
    apply elem_of_cons in Hin as [?|Hin]; [done|by apply elem_of_nil in Hin].
Qed.

Lemma published_payload_bounds_witness :
  let f := [xd3; xfc; x01; x42; xaa; xbb; xcc] in
  let w := mkWorld (blocking_port f) 0 [] in
  let cfg := mkClientConfig "id" "broker" "ntrip/data" "ca" "certs" 8883 in
  let payload := big_endian 16 1700000000000 ++ f in
  Publish "ntrip/data" payload 1
    ∈ trace (snd (streaming epoch_2023 3 cfg w))
  /\ 22 <= length payload <= 1045
  /\ payload !! 16 = Some xd3
  /\ length payload = 22 + announced_length (drop 16 payload).
Proof.
  intros f w cfg payload.
  assert (Htr : trace (snd (streaming epoch_2023 3 cfg w))
                = trace w ++ trace (snd (streaming epoch_2023 3 cfg w)))
    by reflexivity.
  assert (Hin : Publish "ntrip/data" payload 1
                ∈ trace (snd (streaming epoch_2023 3 cfg w)))
    by (apply (bool_decide_eq_true_1 _); vm_compute; reflexivity).
  split; [exact Hin|].
  exact (published_payload_bounds epoch_2023 3 cfg w _ _ "ntrip/data" payload
           1%Z (port_exact_reads device_lost) eq_refl Htr Hin).
Defined.

(** ** The sizes the reader asks for *)

Lemma port_read_requested n p :
  requested (snd (port_read n p)) = requested p ++ [n].
Proof.
  unfold port_read. case_decide; [done|]. by destruct (on_starved p).
Qed.

Lemma find_preamble_requested fuel p :
  exists n,
    requested (snd (find_preamble fuel p)) = requested p ++ replicate n 1.
Proof.
  revert p. induction fuel as [|fuel IH]; intros p.
  { exists 0. cbn. by rewrite app_nil_r. }
  cbn [find_preamble]. unfold_monad. unfold read, Port_source.
  pose proof (port_read_requested 1 p) as Hreq.
  destruct (port_read 1 p) as [[b| |] p1]; cbn [snd] in *;
    [|by exists 1..].
  destruct (decide (b = [xd3])) as [Hpre|Hne]; [by exists 1|].
  change (@find_preamble Port port_read fuel)
    with (@find_preamble Port Port_source fuel).
  destruct (IH p1) as [n Hn]. exists (S n).
  rewrite Hn, Hreq. cbn [replicate]. by rewrite <- app_assoc.
Qed.

Lemma read_frame_body_requested preamble p :
  exists asked,
    requested (snd (read_frame_body preamble p)) = requested p ++ asked
    /\ Forall (fun n => n <= 1023) asked.
Proof.
  unfold read_frame_body. unfold_monad. unfold read, Port_source.
  pose proof (port_read_requested 2 p) as H2.
  destruct (port_read 2 p) as [[field| |] p2]; cbn [snd] in *;
    [|exists [2]; split; [done|repeat (apply Forall_cons_2; [lia|]); apply Forall_nil_2]..].
  set (L := Z.to_nat (message_length field)).
  assert (HL : L <= 1023)
    by (pose proof (message_length_range field); unfold L; lia).
  pose proof (port_read_requested L p2) as HL2.
  destruct (port_read L p2) as [[message| |] p3]; cbn [snd] in *;
    [|exists [2; L]; split;
       [by rewrite HL2, H2, <- app_assoc|repeat (apply Forall_cons_2; [lia|]); apply Forall_nil_2]..].
  pose proof (port_read_requested 3 p3) as H3.
  exists [2; L; 3].
  split; [|repeat (apply Forall_cons_2; [lia|]); apply Forall_nil_2].
  destruct (port_read 3 p3) as [[crc| |] p4]; cbn [snd] in *;
    by rewrite H3, HL2, H2, <- !app_assoc.
Qed.

(** X13.  The reader never asks the port for more than 1023 bytes at once:
    it asks for one byte at a time while it looks for the preamble, then for
    2 bytes, for the payload length (at most 1023) and for 3 bytes. *)
Theorem read_sizes_bounded fuel p :
  exists asked,
    requested (snd (read_rtcm_packet fuel p)) = requested p ++ asked
    /\ Forall (fun n => n <= 1023) asked.
Proof.
  unfold read_rtcm_packet. unfold_monad.
  destruct (find_preamble_requested fuel p) as [n Hn].
  assert (Hones : Forall (fun k => k <= 1023) (replicate n 1))
    by (apply Forall_replicate; lia).
  destruct (find_preamble fuel p) as [[pre| |] p1]; cbn [snd] in *;
    [|by exists (replicate n 1)..].
  destruct (read_frame_body_requested pre p1) as (asked & Hasked & Hle).
  exists (replicate n 1 ++ asked).
  split; [by rewrite Hasked, Hn, <- app_assoc|by apply Forall_app].
Qed.


(** * The order of publication *)

Section Order.
Context {P : Type} `{ByteSource P}.
Variable env : Env.
Variable config : ClientConfig.

(** With a clock that fits 16 bytes every packet framed gets its stamp, so
    the events of the loop are whole turns and nothing else. *)
Lemma streaming_whole_turns fuel (w : World P) :
  (forall i, (0 <= clock_ms env i < 256 ^ 16)%Z) ->
  exists turns,
    trace (snd (streaming env fuel config w))
    = trace w ++ flat_map (turn_events (topic config)) turns
    /\ Forall (fun turn : bytes * bytes => length turn.2 = 16) turns.
Proof.
  intros Hclock. revert w. induction fuel as [|fuel IH]; intros w.
  { exists []. cbn [flat_map]. rewrite app_nil_r. by split; [|constructor]. }
  cbn [streaming].
  destruct (read_rtcm_packet (S fuel) (ser w)) as [[f| |] p'] eqn:E.
  - pose proof (forward_packet_run env (S fuel) config w f p' E) as Hturn.
    rewrite (int_to_bytes_big_fits _ 16) in Hturn by apply Hclock.
    unfold call in Hturn. cbn [ser ticks trace] in Hturn.
    set (stamp := big_endian 16 (clock_ms env (ticks w))) in *.
    assert (Hlen : length stamp = 16) by apply big_endian_length.
    destruct (raises env _ _) as [e|].
    + rewrite (bind_Raise_l _ _ _ _ _ Hturn). cbn [snd trace].
      exists [(f, stamp)]. cbn [flat_map turn_events fst snd app].
      split; [by rewrite <- app_assoc|]. by constructor.
    + rewrite (bind_Ok_l _ _ _ _ _ Hturn).
      destruct (IH (mkWorld p' (S (ticks w))
                      ((trace w ++ [Framed f])
                         ++ [Publish (topic config) (stamp ++ f) 1])))
        as (turns & Htr & Hlens).
      exists ((f, stamp) :: turns). cbn [flat_map turn_events fst snd app].
      split; [rewrite Htr; cbn [trace]; by rewrite <- !app_assoc|].
      by constructor.
  - assert (Hturn : forward_packet env (S fuel) config w
                    = (Raise e, mkWorld p' (ticks w) (trace w))).
    { unfold forward_packet, on_port. unfold_monad. by rewrite E. }
    rewrite (bind_Raise_l _ _ _ _ _ Hturn). cbn [snd trace].
    exists []. cbn [flat_map]. rewrite app_nil_r. by split; [|constructor].
  - assert (Hturn : forward_packet env (S fuel) config w
                    = (Running, mkWorld p' (ticks w) (trace w))).
    { unfold forward_packet, on_port. unfold_monad. by rewrite E. }
    rewrite (bind_Running_l _ _ _ _ Hturn). cbn [snd trace].
    exists []. cbn [flat_map]. rewrite app_nil_r. by split; [|constructor].
Qed.
End Order.

Lemma wire_cons g f chunks : wire ((g, f) :: chunks) = g ++ f ++ wire chunks.
Proof. unfold wire. cbn [flat_map fst snd]. by rewrite <- app_assoc. Qed.

(** Frames on the wire, each after garbage without [0xD3], and garbage after
    the last: the loop frames and publishes them one after the other and
    then meets the starved port. *)
Lemma streaming_wire env config chunks tail m rq k tr fuel :
  Forall (fun c : bytes * bytes =>
            Forall (fun b => b <> xd3) c.1 /\ is_frame c.2 = true) chunks ->
  Forall (fun b => b <> xd3) tail ->
  (forall i, (0 <= clock_ms env i < 256 ^ 16)%Z) ->
  (forall t ev, raises env t ev = None) ->
  length (wire chunks ++ tail) < fuel ->
  let w := mkWorld (mkPort (wire chunks ++ tail) m rq) k tr in
  let stamps :=
    (fun i => big_endian 16 (clock_ms env i)) <$> seq k (length chunks) in
  fst (streaming env fuel config w)
  = match m with Fails e => Raise e | _ => Running end
  /\ trace (snd (streaming env fuel config w))
     = tr ++ flat_map (turn_events (topic config)) (zip chunks.*2 stamps).
Proof.
  intros Hchunks Htail Hclock Hquiet. revert rq k tr fuel.
  induction Hchunks as [|[g f] chunks [Hg Hf] _ IH]; intros rq k tr fuel Hfuel;
    (destruct fuel as [|fuel]; [simpl in Hfuel; lia|]); cbn zeta.
  - cbn [wire flat_map app] in *.
    cbn [streaming length seq fmap list_fmap zip zip_with flat_map].
    rewrite app_nil_r.
    pose proof (find_preamble_garbage tail m rq (S fuel) Htail) as Hscan.
    rewrite decide_False in Hscan by lia.
    assert (Hturn : exists p',
              forward_packet env (S fuel) config
                (mkWorld (mkPort tail m rq) k tr)
              = (match m with Fails e => Raise e | _ => Running end,
                 mkWorld p' k tr)).
    { unfold forward_packet, on_port, read_rtcm_packet. cbn [ser].
      destruct m.
      - eexists. apply bind_Raise_l.
        by rewrite (bind_Raise_l _ _ _ _ _ Hscan).
      - eexists. apply bind_Running_l.
        by rewrite (bind_Running_l _ _ _ _ Hscan).
      - eexists. apply bind_Running_l.
        by rewrite (bind_Running_l _ _ _ _ Hscan). }
    destruct Hturn as [p' Hturn].
    destruct m;
      [rewrite (bind_Raise_l _ _ _ _ _ Hturn)
      |rewrite (bind_Running_l _ _ _ _ Hturn)
      |rewrite (bind_Running_l _ _ _ _ Hturn)]; done.
  - rewrite wire_cons in *. rewrite <- !app_assoc in *.
    rewrite !length_app in Hfuel.
    pose proof (is_frame_length f Hf) as Hlen.
    cbn [streaming length].
    pose proof (read_rtcm_packet_port g f (wire chunks ++ tail) m rq (S fuel)
                  Hg Hf ltac:(lia)) as Hread.
    pose proof (forward_packet_run env (S fuel) config
                  (mkWorld (mkPort (g ++ f ++ wire chunks ++ tail) m rq) k tr)
                  f _ Hread) as Hturn.
    cbn [ticks trace] in Hturn.
    rewrite (int_to_bytes_big_fits (clock_ms env k) 16) in Hturn
      by apply Hclock.
    unfold call in Hturn. rewrite Hquiet in Hturn. cbn [ser ticks trace] in Hturn.
    rewrite (bind_Ok_l _ _ _ _ _ Hturn).
    destruct (IH (rq ++ replicate (length g) 1 ++ [1; 2; announced_length f; 3])
                (S k)
                ((tr ++ [Framed f])
                   ++ [Publish (topic config)
                         (big_endian 16 (clock_ms env k) ++ f) 1]) fuel
                ltac:(rewrite length_app; lia)) as [Hout Htr].
    split; [exact Hout|].
    rewrite Htr.
    cbn [seq fmap list_fmap zip zip_with flat_map turn_events fst snd].
    by rewrite <- !app_assoc.
Qed.

(** C8.  The packets handed to [publish] are the packets framed, in the order
    they were framed.  In every run of the loop, on any byte source and
    whatever the libraries raise, each packet framed is followed at once by
    the call that publishes its stamp and that very packet, so what is
    published is what was framed, in the same order, but for at most one
    last packet whose stamp could not be made; with a clock that fits 16
    bytes there is no such packet.  And frames [F1 .. Fn] on the wire, each
    after any garbage without [0xD3], are all framed and all published, in
    the order [F1], ..., [Fn], each with the clock reading of its turn. *)
Theorem frames_published_in_order :
  (forall (P : Type) (H : ByteSource P) env fuel config (w : World P),
     exists new,
       trace (snd (streaming env fuel config w)) = trace w ++ new
       /\ published_packets new `prefix_of` framed_packets new
       /\ length (framed_packets new) <= S (length (published_packets new))
       /\ ((forall i, (0 <= clock_ms env i < 256 ^ 16)%Z) ->
           published_packets new = framed_packets new))
  /\ (forall env config chunks tail m rq k tr fuel,
        Forall (fun c : bytes * bytes =>
                  Forall (fun b => b <> xd3) c.1 /\ is_frame c.2 = true)
          chunks ->
        Forall (fun b => b <> xd3) tail ->
        (forall i, (0 <= clock_ms env i < 256 ^ 16)%Z) ->
        (forall t ev, raises env t ev = None) ->
        length (wire chunks ++ tail) < fuel ->
        let w := mkWorld (mkPort (wire chunks ++ tail) m rq) k tr in
        let new :=
          flat_map (turn_events (topic config))
            (zip chunks.*2
               ((fun i => big_endian 16 (clock_ms env i))
                  <$> seq k (length chunks))) in
        trace (snd (streaming env fuel config w)) = tr ++ new
        /\ framed_packets new = chunks.*2
        /\ published_packets new = chunks.*2).
Proof.
  split.
  - intros P H env fuel config w.
    destruct (published_prefix_of_framed env fuel config w)
      as (turns & last & Htr & Hlast & Hpub & Hfr & Hpre & Hlen).
    cbn zeta in *.
    exists (flat_map (turn_events (topic config)) turns ++ last).
    split; [done|]. split; [done|]. split; [done|].
    intros Hclock.
    destruct (streaming_whole_turns env config fuel w Hclock)
      as (turns' & Htr' & Hlens').
    rewrite Htr in Htr'. apply app_inv_head in Htr'. rewrite Htr'.
    by rewrite published_packets_turns, framed_packets_turns.
  - intros env config chunks tail m rq k tr fuel
      Hchunks Htail Hclock Hquiet Hfuel w new.
    destruct (streaming_wire env config chunks tail m rq k tr fuel
                Hchunks Htail Hclock Hquiet Hfuel) as [_ Htr].
    split; [exact Htr|].
    assert (Hframes : (zip chunks.*2
                         ((fun i => big_endian 16 (clock_ms env i))
                            <$> seq k (length chunks))).*1 = chunks.*2).
    { apply fst_zip.
      by rewrite !length_fmap, length_seq. }
    subst new. rewrite framed_packets_turns, published_packets_turns.
    + by rewrite Hframes.
    + apply Forall_forall. intros [f stamp] Hin. cbn [snd].
      apply elem_of_zip_r in Hin.
      apply list_elem_of_fmap in Hin as (i & -> & _).
      apply big_endian_length.
Qed.

Lemma frames_published_in_order_witness :
  let F1 := [xd3; x00; x01; x11; xa1; xb1; xc1] in
  let F2 := [xd3; x00; x00; xa2; xb2; xc2] in
  let F3 := [xd3; xfc; x02; x31; x32; xa3; xb3; xc3] in
  let cfg := mkClientConfig "id" "broker" "ntrip/data" "ca" "certs" 8883 in
  let w := mkWorld (blocking_port (F1 ++ [xff; x00] ++ F2 ++ F3 ++ [x7f])) 0 [] in
  trace (snd (streaming with_credentials 30 cfg w))
  = [Framed F1; Publish "ntrip/data" (big_endian 16 1700000000000 ++ F1) 1;
     Framed F2; Publish "ntrip/data" (big_endian 16 1700000000001 ++ F2) 1;
     Framed F3; Publish "ntrip/data" (big_endian 16 1700000000002 ++ F3) 1]
  /\ framed_packets
       [Framed F1; Publish "ntrip/data" (big_endian 16 1700000000000 ++ F1) 1;
        Framed F2; Publish "ntrip/data" (big_endian 16 1700000000001 ++ F2) 1;
        Framed F3; Publish "ntrip/data" (big_endian 16 1700000000002 ++ F3) 1]
     = [F1; F2; F3]
  /\ published_packets
       [Framed F1; Publish "ntrip/data" (big_endian 16 1700000000000 ++ F1) 1;
        Framed F2; Publish "ntrip/data" (big_endian 16 1700000000001 ++ F2) 1;
        Framed F3; Publish "ntrip/data" (big_endian 16 1700000000002 ++ F3) 1]
     = [F1; F2; F3].
Proof.
  intros F1 F2 F3 cfg w.
  assert (Hchunks : Forall (fun c : bytes * bytes =>
                              Forall (fun b => b <> xd3) c.1
                              /\ is_frame c.2 = true)
                      [([], F1); ([xff; x00], F2); ([], F3)]).
  { repeat (apply Forall_cons_2; [split; [|reflexivity]|]);
      [..|apply Forall_nil_2];
      repeat (apply Forall_cons_2; [discriminate|]); apply Forall_nil_2. }
  assert (Htail : Forall (fun b => b <> xd3) [x7f])
    by (apply Forall_cons_2; [discriminate|apply Forall_nil_2]).
  assert (Hclock : forall i, (0 <= clock_ms with_credentials i < 256 ^ 16)%Z).
  { intros i. cbn [clock_ms with_credentials].
    change (256 ^ 16)%Z with 340282366920938463463374607431768211456%Z. lia. }
  assert (Hquiet : forall t ev, raises with_credentials t ev = None)
    by reflexivity.
  assert (Hfuel : length (wire [([], F1); ([xff; x00], F2); ([], F3)] ++ [x7f])
                  < 30) by (vm_compute; lia).
  exact (proj2 frames_published_in_order with_credentials cfg
           [([], F1); ([xff; x00], F2); ([], F3)] [x7f]
           (Fails device_lost) [] 0 [] 30
           Hchunks Htail Hclock Hquiet Hfuel).
Defined.
